(** * yandex_reviews_to_md.py: a shallow embedding in Rocq

    The script has four pieces of behaviour worth modelling:
    - [extract_id]: business identifier from a numeric string or a URL;
    - [build_markdown]: the Markdown renderer of the parser's data;
    - [_validate_output]: resolution of the output path, on a model of
      the POSIX file system as pathlib sees it;
    - [main]: the CLI flow around the blocking fetch, with Python's
      [try / except / finally] written out in a small state and
      exception monad. *)

From Stdlib Require Import ZArith List String Ascii Bool Lia.
Import ListNotations.
Open Scope Z_scope.

(* ------------------------------------------------------------------ *)
(** ** Python [str] values *)

(** A Python [str] is a sequence of Unicode code points. *)
Definition ustr := list Z.

Fixpoint bytes_of_string (s : string) : list Z :=
  match s with
  | EmptyString => []
  | String a r => Z.of_N (N_of_ascii a) :: bytes_of_string r
  end.

(** UTF-8 decoding (one to three byte sequences), used to turn the
    program's string literals, written in UTF-8, into code points. *)
Fixpoint utf8_decode (bs : list Z) : ustr :=
  match bs with
  | [] => []
  | b1 :: rest =>
      if b1 <? 128 then b1 :: utf8_decode rest
      else match rest with
           | [] => []
           | b2 :: rest2 =>
               if b1 <? 224 then
                 (Z.land b1 31 * 64 + Z.land b2 63) :: utf8_decode rest2
               else match rest2 with
                    | [] => []
                    | b3 :: rest3 =>
                        (Z.land b1 15 * 4096 + Z.land b2 63 * 64
                         + Z.land b3 63) :: utf8_decode rest3
                    end
           end
  end.

Definition u (s : string) : ustr := utf8_decode (bytes_of_string s).

Definition ustr_eqb (a b : ustr) : bool :=
  if list_eq_dec Z.eq_dec a b then true else false.

(** [str.isspace] on one code point: the characters Python strips by
    default (bidirectional classes WS, B, S and category Zs). *)
Definition py_isspace (c : Z) : bool :=
  ((9 <=? c) && (c <=? 13)) || ((28 <=? c) && (c <=? 32))
  || (c =? 133) || (c =? 160) || (c =? 5760)
  || ((8192 <=? c) && (c <=? 8202))
  || (c =? 8232) || (c =? 8233) || (c =? 8239) || (c =? 8287)
  || (c =? 12288).

Fixpoint lstrip (s : ustr) : ustr :=
  match s with
  | [] => []
  | c :: r => if py_isspace c then lstrip r else s
  end.

Definition rstrip (s : ustr) : ustr := rev (lstrip (rev s)).

(** [str.strip()] with no argument. *)
Definition strip (s : ustr) : ustr := rstrip (lstrip s).

(** ["sep".join(parts)] *)
Fixpoint join (sep : ustr) (parts : list ustr) : ustr :=
  match parts with
  | [] => []
  | [x] => x
  | x :: rest => x ++ sep ++ join sep rest
  end.

(** Truthiness of a [str]: non-empty. *)
Definition truthy (s : ustr) : bool :=
  match s with [] => false | _ => true end.

(** [str(n)] for a non-negative [int] ([fuel] bounds the digit count). *)
Fixpoint digits_fuel (fuel : nat) (n : Z) (acc : ustr) : ustr :=
  match fuel with
  | O => acc
  | S f =>
      let acc' := (48 + n mod 10) :: acc in
      if n <? 10 then acc' else digits_fuel f (n / 10) acc'
  end.

Definition str_of_nonneg (n : Z) : ustr :=
  digits_fuel (S (Z.to_nat (Z.log2 n))) n [].

(** [str(n)] / [f"{n}"] for an [int]. *)
Definition py_str_int (n : Z) : ustr :=
  if n <? 0 then 45 :: str_of_nonneg (- n) else str_of_nonneg n.

(** [f"{x}"] for an optional [str]: [None] is formatted as ["None"]. *)
Definition py_fmt_opt (o : option ustr) : ustr :=
  match o with Some s => s | None => u "None" end.

(* ------------------------------------------------------------------ *)
(** ** Dates: [datetime.fromtimestamp(ts).strftime("%d.%m.%Y")] *)

(** Proleptic Gregorian date of a day count since 1970-01-01. *)
Definition civil_from_days (z : Z) : Z * Z * Z :=
  let z := z + 719468 in
  let era := z / 146097 in
  let doe := z - era * 146097 in
  let yoe := (doe - doe / 1460 + doe / 36524 - doe / 146096) / 365 in
  let y := yoe + era * 400 in
  let doy := doe - (365 * yoe + yoe / 4 - yoe / 100) in
  let mp := (5 * doy + 2) / 153 in
  let d := doy - (153 * mp + 2) / 5 + 1 in
  let m := if mp <? 10 then mp + 3 else mp - 9 in
  (if m <=? 2 then y + 1 else y, m, d).

Definition pad2 (n : Z) : ustr :=
  if n <? 10 then 48 :: py_str_int n else py_str_int n.

(** The exceptions [datetime.fromtimestamp] raises. *)
Inductive date_error :=
| DateValueError          (** [year ... is out of range] *)
| DateOSError             (** [localtime_r] fails: [EOVERFLOW] *)
| DateOverflowError.      (** [timestamp out of range for platform time_t] *)

(** The range of a 64-bit [time_t] and of the C [int] of [tm_year]. *)
Definition time_t_min : Z := - 2 ^ 63.
Definition time_t_max : Z := 2 ^ 63 - 1.
Definition c_int_min : Z := - 2 ^ 31.
Definition c_int_max : Z := 2 ^ 31 - 1.

(** [MINYEAR <= year <= MAXYEAR], as [utc_to_seconds] checks it. *)
Definition year_ok (y : Z) : bool := (1 <=? y) && (y <=? 9999).

Section Dates.

(** The local time zone: the UTC offset, in seconds, in force at a
    given instant (it changes with daylight saving time). *)
Variable utc_offset : Z -> Z.

(** [localtime_r(&t, &tm)]: the local calendar date; [None] when
    [tm_year] (the year minus 1900) does not fit a C [int], where glibc
    fails with [EOVERFLOW].  The test is made on the local date. *)
Definition localtime (t : Z) : option (Z * Z * Z) :=
  let '(y, m, d) := civil_from_days ((t + utc_offset t) / 86400) in
  if (c_int_min <=? y - 1900) && (y - 1900 <=? c_int_max) then Some (y, m, d)
  else None.

(** [datetime.fromtimestamp(ts)] for an [int] timestamp, as CPython's
    [datetime_from_timet_and_us] computes it: the conversion to [time_t],
    [localtime_r], the year check of [utc_to_seconds], then the fold
    probe one day earlier ([max_fold_seconds]) and, when the offset
    decreased over that day, the second probe at [ts + transition]; each
    probe converts its own local date with the same checks.  The result
    is the date of the [datetime]. *)
Definition fromtimestamp_date (ts : Z) : (Z * Z * Z) + date_error :=
  if negb ((time_t_min <=? ts) && (ts <=? time_t_max)) then inr DateOverflowError
  else match localtime ts with
  | None => inr DateOSError
  | Some (y, m, d) =>
      if negb (year_ok y) then inr DateValueError
      else match localtime (ts - 86400) with
      | None => inr DateOSError
      | Some (y1, _, _) =>
          if negb (year_ok y1) then inr DateValueError
          else
            let transition := utc_offset ts - utc_offset (ts - 86400) in
            if transition <? 0 then
              match localtime (ts + transition) with
              | None => inr DateOSError
              | Some (y2, _, _) =>
                  if negb (year_ok y2) then inr DateValueError else inl (y, m, d)
              end
            else inl (y, m, d)
      end
  end.

(** [datetime.fromtimestamp(ts).strftime("%d.%m.%Y")], or the exception
    raised; [%Y] is printed as glibc prints it, without padding. *)
Definition fmt_date (ts : Z) : ustr + date_error :=
  match fromtimestamp_date ts with
  | inl (y, m, d) => inl (pad2 d ++ [46] ++ pad2 m ++ [46] ++ py_str_int y)
  | inr e => inr e
  end.

End Dates.

(* ------------------------------------------------------------------ *)
(** ** Parser data: [YandexParser.parse()] *)

(** One review dict, as built by [_patched_get_data_item]. *)
Record review := {
  r_name : option ustr;
  r_icon_href : option ustr;
  r_date : Z;
  r_text : option ustr;
  r_stars : Z;
  r_answer : option ustr
}.

(** [company_info]: each field held as the text [f"{...}"] gives it. *)
Record company := {
  c_name : ustr;
  c_rating : ustr;
  c_count_rating : ustr
}.

Record parse_data := {
  company_info : company;
  company_reviews : list review
}.

(** [enumerate(xs, start)] *)
Fixpoint enumerate {A} (i : Z) (xs : list A) : list (Z * A) :=
  match xs with
  | [] => []
  | x :: r => (i, x) :: enumerate (i + 1) r
  end.

(* ------------------------------------------------------------------ *)
(** ** [build_markdown] *)

Definition nl : ustr := [10].

(** The literal parts of the document. *)
Definition s_title : ustr := Eval cbv in u "# ".
Definition s_rating : ustr := Eval cbv in u "**Рейтинг:** ".
Definition s_votes : ustr := Eval cbv in u "/5  ".
Definition s_votes2 : ustr := Eval cbv in u "**Всего голосов:** ".
Definition s_rule : ustr := Eval cbv in nl ++ u "---" ++ nl.
Definition s_reviews : ustr := Eval cbv in u "## Отзывы" ++ nl.
Definition s_h3 : ustr := Eval cbv in u "### ".
Definition s_dot : ustr := Eval cbv in u ". ".
Definition s_dash : ustr := Eval cbv in u " — ".
Definition s_stars : ustr := Eval cbv in u "**Оценка:** ".
Definition s_of5 : ustr := Eval cbv in u "/5".
Definition no_text_placeholder : ustr := Eval cbv in u "_(текст отсутствует)_".
Definition s_answer : ustr := Eval cbv in nl ++ u "> **Ответ компании:** ".

(** The four header entries of [md]. *)
Definition md_header (c : company) : list ustr :=
  [ s_title ++ c_name c ++ nl;
    s_rating ++ c_rating c ++ s_votes ++ nl ++ s_votes2 ++ c_count_rating c ++ nl;
    s_rule;
    s_reviews ].

(** [f"### {idx}. {review['name']} — {date_str}"] *)
Definition subheading (idx : Z) (r : review) (date_str : ustr) : ustr :=
  s_h3 ++ py_str_int idx ++ s_dot ++ py_fmt_opt (r_name r) ++ s_dash ++ date_str.

(** [(review.get("text") or "").strip() or "_(текст отсутствует)_"] *)
Definition review_body (r : review) : ustr :=
  let t := strip (match r_text r with Some s => s | None => [] end) in
  if truthy t then t else no_text_placeholder.

(** [if answer := review.get("answer"): md.append(...)] *)
Definition review_answer (r : review) : list ustr :=
  match r_answer r with
  | Some a => if truthy a then [s_answer ++ strip a] else []
  | None => []
  end.

(** Side output of the loop: the [tqdm] bar and the verbose log lines.
    Neither is part of the returned text. *)
Inductive render_event :=
| BarTick (idx total : Z)
| LogProgress (idx total : Z).

Section Render.

Variable utc_offset : Z -> Z.

(** The [md] entries appended for one review (loop body), or the
    exception [datetime.fromtimestamp] raises. *)
Definition review_block (idx : Z) (r : review) : list ustr + date_error :=
  match fmt_date utc_offset (r_date r) with
  | inr e => inr e
  | inl date_str =>
      inl ([subheading idx r date_str;
            s_stars ++ py_str_int (r_stars r) ++ s_of5 ++ nl;
            review_body r]
           ++ review_answer r ++ [s_rule])
  end.

(** [for idx, review in iterable: ...], threading [md] and the side
    output; [show_bar] is [tqdm and not verbose]. *)
Fixpoint render_loop (show_bar verbose : bool) (total : Z)
    (items : list (Z * review)) (md : list ustr) (ev : list render_event)
    : (list ustr * list render_event) + date_error :=
  match items with
  | [] => inl (md, ev)
  | (idx, r) :: rest =>
      let ev := if show_bar then ev ++ [BarTick idx total] else ev in
      let ev := if verbose && (idx mod 25 =? 0)
                then ev ++ [LogProgress idx total] else ev in
      match review_block idx r with
      | inr e => inr e
      | inl b => render_loop show_bar verbose total rest (md ++ b) ev
      end
  end.

(** [build_markdown(data, verbose)] with [tqdm] available or not:
    the returned text and the side output, or the exception. *)
Definition build_markdown_run (tqdm_available verbose : bool) (data : parse_data)
    : (ustr * list render_event) + date_error :=
  let reviews := company_reviews data in
  let show_bar := tqdm_available && negb verbose in
  match render_loop show_bar verbose (Z.of_nat (List.length reviews))
          (enumerate 1 reviews) (md_header (company_info data)) [] with
  | inr e => inr e
  | inl (md, ev) => inl (join nl md, ev)
  end.

(** The string [build_markdown] returns, or the exception it raises. *)
Definition build_markdown (tqdm_available verbose : bool) (data : parse_data)
    : ustr + date_error :=
  match build_markdown_run tqdm_available verbose data with
  | inl (md, _) => inl md
  | inr e => inr e
  end.

End Render.

(* ------------------------------------------------------------------ *)
(** ** [extract_id] *)

(** The Unicode character database enters through two tables, given
    for the code points above ASCII: the digit value of the decimal
    digits (category Nd, what [\d] and [int()] accept) and the digits
    that are not decimal (Numeric_Type=Digit, e.g. superscripts, which
    [str.isdigit] accepts and [int()] rejects).  In ASCII the decimal
    digits are exactly ['0'..'9']. *)
Section ExtractId.

Variable nonascii_decimal : Z -> option Z.
Variable nonascii_digit_only : Z -> bool.

Definition decimal_value (c : Z) : option Z :=
  if (48 <=? c) && (c <=? 57) then Some (c - 48)
  else if c <? 128 then None else nonascii_decimal c.

(** [\d] *)
Definition is_decimal (c : Z) : bool :=
  match decimal_value c with Some _ => true | None => false end.

(** [str.isdigit] *)
Definition py_isdigit (s : ustr) : bool :=
  match s with
  | [] => false
  | _ => forallb (fun c => is_decimal c
                           || ((128 <=? c) && nonascii_digit_only c)) s
  end.

Fixpoint int_digits (acc : Z) (s : ustr) : option Z :=
  match s with
  | [] => Some acc
  | c :: r =>
      match decimal_value c with
      | Some v => int_digits (10 * acc + v) r
      | None => None
      end
  end.

(** The regular expression [/(\d{6,})(?:/|\?|$)] of [re.search],
    matched with the backtracking of Python's engine. *)

Fixpoint digit_prefix (s : ustr) : ustr :=
  match s with
  | c :: r => if is_decimal c then c :: digit_prefix r else []
  | [] => []
  end.

(** [(?:/|\?|$)]: ['/'], ['?'], or [$], which matches at the end of the
    string and before a newline that ends it. *)
Definition tail_ok (rest : ustr) : bool :=
  match rest with
  | [] => true
  | [c] => (c =? 10) || (c =? 47) || (c =? 63)
  | c :: _ => (c =? 47) || (c =? 63)
  end.

(** Greedy [\d{6,}]: try [n], [n-1], ..., [6] digits. *)
Fixpoint greedy_try (n : nat) (body : ustr) : option nat :=
  match n with
  | O => None
  | S m =>
      if Nat.ltb n 6 then None
      else if tail_ok (skipn n body) then Some n
      else greedy_try m body
  end.

(** The match starting at the head of [s]: group 1. *)
Definition match_at (s : ustr) : option ustr :=
  match s with
  | c :: body =>
      if c =? 47 then
        match greedy_try (List.length (digit_prefix body)) body with
        | Some k => Some (firstn k body)
        | None => None
        end
      else None
  | [] => None
  end.

(** [re.search]: the first start position that matches. *)
Fixpoint re_search (s : ustr) : option ustr :=
  match s with
  | [] => None
  | _ :: r =>
      match match_at s with
      | Some g => Some g
      | None => re_search r
      end
  end.

(** A [ValueError]: the script's own, or one of the two [int()] raises
    on these strings: the invalid literal, or the limit on the number of
    digits ([sys.get_int_max_str_digits()], 4300 by default). *)
Inductive id_error :=
| NoIdFound
| IntLiteral (literal : ustr)
| IntLimit (digits : nat).

Definition int_max_str_digits : nat := 4300.

(** [int(s)] on the strings it receives here (all of whose characters
    pass [str.isdigit]).  [PyLong_FromString] first counts the leading
    digits (the non-ASCII decimal digits already turned into ASCII ones)
    and raises the limit error when there are more than 4300 of them,
    before it checks the rest of the literal. *)
Definition py_int (s : ustr) : Z + id_error :=
  let digits := List.length (digit_prefix s) in
  if Nat.ltb int_max_str_digits digits then inr (IntLimit digits)
  else match s with
       | [] => inr (IntLiteral s)
       | _ => match int_digits 0 s with
              | Some n => inl n
              | None => inr (IntLiteral s)
              end
       end.

Definition no_id_message : ustr :=
  Eval cbv in u "Не удалось определить ID компании из переданной строки.".

(** [str(exc)].  [int()]'s message formats the literal with [%.200R]: its
    [repr], which for characters passing [str.isdigit] is the string
    between single quotes, cut after 200 characters. *)
Definition id_error_message (e : id_error) : ustr :=
  match e with
  | NoIdFound => no_id_message
  | IntLiteral s =>
      u "invalid literal for int() with base 10: " ++ firstn 200 ([39] ++ s ++ [39])
  | IntLimit n =>
      u "Exceeds the limit (4300 digits) for integer string conversion: value has "
      ++ py_str_int (Z.of_nat n)
      ++ u " digits; use sys.set_int_max_str_digits() to increase the limit"
  end.

Definition extract_id (source : ustr) : Z + id_error :=
  if py_isdigit source then py_int source
  else match re_search source with
       | Some g => py_int g
       | None => inr NoIdFound
       end.

End ExtractId.

(** The two tables restricted to Latin-1 (code points below 256): no
    decimal digit outside ASCII; superscripts one, two and three are
    the non-decimal digits. *)
Definition latin1_decimal (c : Z) : option Z := None.
Definition latin1_digit_only (c : Z) : bool :=
  (c =? 178) || (c =? 179) || (c =? 185).

(* ------------------------------------------------------------------ *)
(** ** File system and [pathlib] (POSIX, no symbolic links) *)

Inductive node := Dir | File.

(** Entries keyed by their canonical absolute path (components from
    the root); the root itself always exists as a directory. *)
Definition nodes := list ustr -> option node.

Record fs_state := {
  fs_nodes : nodes;
  fs_cwd : list ustr
}.

Definition set_node (ns : nodes) (k : list ustr) (n : node) : nodes :=
  fun q => if list_eq_dec (list_eq_dec Z.eq_dec) q k then Some n else ns q.

(** A [pathlib.PurePosixPath]: anchored at the root or relative. *)
Record path := {
  p_abs : bool;
  p_parts : list ustr
}.

Definition dotdot : ustr := [46; 46].

(** [str.split(sep)] *)
Fixpoint split_on (sep : Z) (s : ustr) : list ustr :=
  match s with
  | [] => [[]]
  | c :: r =>
      if c =? sep then [] :: split_on sep r
      else match split_on sep r with
           | [] => [[c]]
           | w :: ws => (c :: w) :: ws
           end
  end.

(** [Path(s)]: empty and ["."] components dropped, [".."] kept.  The
    distinct root ["//"] pathlib keeps for two leading slashes is not
    modelled. *)
Definition parse_path (s : ustr) : path :=
  {| p_abs := match s with 47 :: _ => true | _ => false end;
     p_parts := filter (fun w => negb (ustr_eqb w []) && negb (ustr_eqb w [46]))
                  (split_on 47 s) |}.

(** [path / name] *)
Definition path_join (p : path) (name : ustr) : path :=
  {| p_abs := p_abs p; p_parts := p_parts p ++ [name] |}.

(** [path.parent] (lexical; the root is its own parent). *)
Definition parent (p : path) : path :=
  {| p_abs := p_abs p; p_parts := removelast (p_parts p) |}.

Section Pathlib.

(** [os.path.expanduser] on a ["~"] / ["~user"] component: the home
    directory, or the component unchanged when it cannot be found. *)
Variable expand_tilde : ustr -> ustr.

(** [Path.expanduser()]; [None] for its [RuntimeError]. *)
Definition expanduser (p : path) : option path :=
  if p_abs p then Some p
  else match p_parts p with
       | (126 :: _) as w :: rest =>
           let h := expand_tilde w in
           match h with
           | 126 :: _ => None
           | _ => let hp := parse_path h in
                  Some {| p_abs := p_abs hp; p_parts := p_parts hp ++ rest |}
           end
       | _ => Some p
       end.

End Pathlib.

(** Result of the kernel's path walk. *)
Inductive lookup := LDir (c : list ustr) | LFile (c : list ustr) | LMissing | LNotDir.

(** Path resolution from the directory [cur]: [".."] goes up, a
    missing component is [ENOENT], a file in the middle [ENOTDIR]. *)
Fixpoint walk (ns : nodes) (cur : list ustr) (parts : list ustr) : lookup :=
  match parts with
  | [] => LDir cur
  | w :: rest =>
      if ustr_eqb w dotdot then walk ns (removelast cur) rest
      else match ns (cur ++ [w]) with
           | None => LMissing
           | Some Dir => walk ns (cur ++ [w]) rest
           | Some File =>
               match rest with [] => LFile (cur ++ [w]) | _ => LNotDir end
           end
  end.

(** [Path.is_dir()], [Path.exists()] of an absolute path. *)
Definition is_dir (st : fs_state) (p : path) : bool :=
  match walk (fs_nodes st) [] (p_parts p) with LDir _ => true | _ => false end.

Definition path_exists (st : fs_state) (p : path) : bool :=
  match walk (fs_nodes st) [] (p_parts p) with
  | LDir _ | LFile _ => true
  | _ => false
  end.

(** The [OSError]s and the other exceptions of the file-system code. *)
Inductive os_error :=
| FileNotFoundError
| FileExistsError
| NotADirectoryError
| IsADirectoryError
| RuntimeError.

(** [os.getcwd()]: fails once the working directory is removed. *)
Definition getcwd (st : fs_state) : option (list ustr) :=
  match walk (fs_nodes st) [] (fs_cwd st) with
  | LDir _ => Some (fs_cwd st)
  | _ => None
  end.

(** [Path.absolute()] *)
Definition absolute (st : fs_state) (p : path) : path + os_error :=
  if p_abs p then inl p
  else match getcwd st with
       | Some cwd => inl {| p_abs := true; p_parts := cwd ++ p_parts p |}
       | None => inr FileNotFoundError
       end.

(** [os.mkdir] of an absolute path. *)
Definition os_mkdir (st : fs_state) (p : path) : fs_state + os_error :=
  match rev (p_parts p) with
  | [] => inr FileExistsError
  | last :: rinit =>
      match walk (fs_nodes st) [] (rev rinit) with
      | LDir c =>
          if ustr_eqb last dotdot then inr FileExistsError
          else match fs_nodes st (c ++ [last]) with
               | Some _ => inr FileExistsError
               | None => inl {| fs_nodes := set_node (fs_nodes st) (c ++ [last]) Dir;
                                fs_cwd := fs_cwd st |}
               end
      | LFile _ | LNotDir => inr NotADirectoryError
      | LMissing => inr FileNotFoundError
      end
  end.

(** [Path.mkdir(parents=False, exist_ok=exist_ok)]:
    [except OSError: if not exist_ok or not self.is_dir(): raise].
    The state is returned with the error: directories made before a
    failure stay. *)
Definition mkdir_once (st : fs_state) (p : path) (exist_ok : bool)
    : fs_state * option os_error :=
  match os_mkdir st p with
  | inl st' => (st', None)
  | inr e => if exist_ok && is_dir st p then (st, None) else (st, Some e)
  end.

(** [Path.mkdir(parents=True, exist_ok=exist_ok)]: on
    [FileNotFoundError], create the parent first ([parents=True,
    exist_ok=True]) and retry with [parents=False].  The fuel is the
    number of components, which bounds the recursion on the parent. *)
Fixpoint mkdir_parents (fuel : nat) (st : fs_state) (p : path) (exist_ok : bool)
    : fs_state * option os_error :=
  match os_mkdir st p with
  | inl st' => (st', None)
  | inr FileNotFoundError =>
      match fuel with
      | O => (st, Some FileNotFoundError)
      | S f =>
          if list_eq_dec (list_eq_dec Z.eq_dec) (p_parts (parent p)) (p_parts p)
          then (st, Some FileNotFoundError)
          else match mkdir_parents f st (parent p) true with
               | (st1, None) => mkdir_once st1 p exist_ok
               | (st1, Some e) => (st1, Some e)
               end
      end
  | inr e => if exist_ok && is_dir st p then (st, None) else (st, Some e)
  end.

Definition mkdir_p (st : fs_state) (p : path) : fs_state * option os_error :=
  mkdir_parents (List.length (p_parts p)) st p true.

(* ------------------------------------------------------------------ *)
(** ** [_validate_output] *)

(** [f"reviews_{company_id}.md"] *)
Definition reviews_file_name (company_id : Z) : ustr :=
  u "reviews_" ++ py_str_int company_id ++ u ".md".

Section ValidateOutput.

Variable expand_tilde : ustr -> ustr.

(** [Path(path_str).expanduser().absolute()] *)
Definition expand_absolute (st : fs_state) (s : ustr) : path + os_error :=
  match expanduser expand_tilde (parse_path s) with
  | None => inr RuntimeError
  | Some p => absolute st p
  end.

Definition validate_output (st : fs_state) (path_str : option ustr) (company_id : Z)
    : fs_state * (path + os_error) :=
  match path_str with
  | None | Some [] =>
      (st, absolute st (parse_path (reviews_file_name company_id)))
  | Some s =>
      match expand_absolute st s with
      | inr e => (st, inr e)
      | inl path =>
          let path := if is_dir st path
                      then path_join path (reviews_file_name company_id)
                      else path in
          if negb (path_exists st (parent path)) then
            match mkdir_p st (parent path) with
            | (st', None) => (st', inl path)
            | (st', Some e) => (st', inr e)
            end
          else (st, inl path)
      end
  end.

End ValidateOutput.

(** [Path.write_text(text)]: opening the file for writing creates or
    truncates it; its contents are recorded in the trace of [main]. *)
Definition open_for_write (st : fs_state) (p : path) : fs_state + os_error :=
  match rev (p_parts p) with
  | [] => inr IsADirectoryError
  | last :: rinit =>
      match walk (fs_nodes st) [] (rev rinit) with
      | LDir c =>
          if ustr_eqb last dotdot then inr IsADirectoryError
          else match fs_nodes st (c ++ [last]) with
               | Some Dir => inr IsADirectoryError
               | _ => inl {| fs_nodes := set_node (fs_nodes st) (c ++ [last]) File;
                             fs_cwd := fs_cwd st |}
               end
      | LFile _ | LNotDir => inr NotADirectoryError
      | LMissing => inr FileNotFoundError
      end
  end.

(* ------------------------------------------------------------------ *)
(** ** [main]: state, exceptions and the console *)

(** What [main] does to the outside world, in order. *)
Inductive event :=
| StartupSpinnerStart
| StartupSpinnerStop                (** [startup_stop_event.set(); join()] *)
| ParseSpinnerStart
| ParseSpinnerStop                  (** [stop_event.set(); spinner_thread.join()] *)
| PbarCreate (total : Z)
| PbarSetTotal (total : Z)
| PbarSetN (n : Z)
| PbarClose
| WriteFile (p : path) (text : ustr)
| PrintLine (msg : ustr).

(** Python exceptions that reach [main]. *)
Inductive exc :=
| SystemExit (msg : ustr)
| KeyboardInterrupt
| OSErr (e : os_error)
| DateError (e : date_error)        (** from [datetime.fromtimestamp] *)
| AttributeError
| FetchError.                       (** any other failure of the parser *)

(** The process state: the file system, the trace, and the variables
    of [main] its progress callbacks close over. *)
Record mstate := {
  m_fs : fs_state;
  m_trace : list event;
  m_startup_stopped : bool;         (** [startup_spinner_stopped] *)
  m_pbar : option Z;                (** [pbar]: [None], or a bar with this total *)
  m_spinner_thread : bool           (** [spinner_thread is not None] *)
}.

Definition M (A : Type) := mstate -> mstate * (A + exc).

Definition ret {A} (x : A) : M A := fun s => (s, inl x).
Definition raise {A} (e : exc) : M A := fun s => (s, inr e).
Definition bind {A B} (c : M A) (k : A -> M B) : M B :=
  fun s => match c s with
           | (s', inl x) => k x s'
           | (s', inr e) => (s', inr e)
           end.

Notation "x <- c ;; k" := (bind c (fun x => k))
  (at level 61, c at next level, right associativity).
Notation "c ;;; k" := (bind c (fun _ : unit => k))
  (at level 61, right associativity).

Definition emit (e : event) : M unit :=
  fun s => ({| m_fs := m_fs s; m_trace := m_trace s ++ [e];
               m_startup_stopped := m_startup_stopped s; m_pbar := m_pbar s;
               m_spinner_thread := m_spinner_thread s |}, inl tt).

Definition get : M mstate := fun s => (s, inl s).
Definition put (s' : mstate) : M unit := fun _ => (s', inl tt).

Definition set_startup_stopped : M unit :=
  fun s => ({| m_fs := m_fs s; m_trace := m_trace s; m_startup_stopped := true;
               m_pbar := m_pbar s; m_spinner_thread := m_spinner_thread s |}, inl tt).

Definition set_pbar (p : option Z) : M unit :=
  fun s => ({| m_fs := m_fs s; m_trace := m_trace s;
               m_startup_stopped := m_startup_stopped s;
               m_pbar := p; m_spinner_thread := m_spinner_thread s |}, inl tt).

Definition set_spinner_thread : M unit :=
  fun s => ({| m_fs := m_fs s; m_trace := m_trace s;
               m_startup_stopped := m_startup_stopped s;
               m_pbar := m_pbar s; m_spinner_thread := true |}, inl tt).

(** [try: body except KeyboardInterrupt: handler finally: fin]: an
    exception raised by [fin] replaces the pending outcome. *)
Definition try_except_finally {A} (body handler : M A) (fin : M unit) : M A :=
  fun s =>
    let '(s1, r) := body s in
    let '(s2, r2) := match r with
                     | inr KeyboardInterrupt => handler s1
                     | _ => (s1, r)
                     end in
    match fin s2 with
    | (s3, inl _) => (s3, r2)
    | (s3, inr e) => (s3, inr e)
    end.

(** Lifting a file-system operation of the model into [M]. *)
Definition with_fs {A} (f : fs_state -> fs_state * (A + os_error)) : M A :=
  fun s =>
    let '(fs', r) := f (m_fs s) in
    ({| m_fs := fs'; m_trace := m_trace s; m_startup_stopped := m_startup_stopped s;
        m_pbar := m_pbar s; m_spinner_thread := m_spinner_thread s |},
     match r with inl x => inl x | inr e => inr (OSErr e) end).

(** [output_path.write_text(md_text, encoding="utf-8")] *)
Definition write_text (p : path) (text : ustr) : M unit :=
  with_fs (fun st => match open_for_write st p with
                     | inl st' => (st', inl tt)
                     | inr e => (st, inr e)
                     end) ;;;
  emit (WriteFile p text).

(** How the blocking [yp.parse()] behaves, seen from [main]: the
    progress callbacks it makes, in order, then how it ends. *)
Inductive fetch_end :=
| FetchReturns (d : parse_data)
| FetchInterrupted                  (** Ctrl+C during the call *)
| FetchFails.

Record fetch_run := {
  f_progress : list (Z * Z);        (** [(current, total)] *)
  f_end : fetch_end
}.

(** The parsed command line, and the line typed at the prompt when
    [input] is missing. *)
Record cli_args := {
  a_input : option ustr;
  a_output : option ustr;
  a_verbose : bool
}.

(** [args.input or input("...").strip()] *)
Definition input_value (args : cli_args) (prompt_line : ustr) : ustr :=
  match a_input args with
  | Some s => if truthy s then s else strip prompt_line
  | None => strip prompt_line
  end.

Definition err_prefix : ustr := Eval cbv in u "Ошибка: ".
Definition cancel_message : ustr :=
  Eval cbv in nl ++ u "[-] Операция прервана пользователем (Ctrl+C)".
Definition saved_prefix : ustr := Eval cbv in u "[+] Markdown сохранён: ".

(** The text of a path in the final message, [str(output_path)]. *)
Fixpoint path_text (parts : list ustr) : ustr :=
  match parts with
  | [] => []
  | w :: r => 47 :: w ++ path_text r
  end.

Section Main.

Variable utc_offset : Z -> Z.
Variable expand_tilde : ustr -> ustr.
Variable nonascii_decimal : Z -> option Z.
Variable nonascii_digit_only : Z -> bool.
(** [tqdm] imported successfully. *)
Variable tqdm_available : bool.

(** [on_progress] (with [tqdm]) *)
Definition on_progress (current total : Z) : M unit :=
  s <- get ;;
  (if m_startup_stopped s then ret tt
   else set_startup_stopped ;;; emit StartupSpinnerStop ;;;
        emit (PbarCreate total) ;;; set_pbar (Some total)) ;;;
  s <- get ;;
  match m_pbar s with
  | None => raise AttributeError
  | Some t =>
      (if t =? total then ret tt
       else set_pbar (Some total) ;;; emit (PbarSetTotal total)) ;;;
      emit (PbarSetN current)
  end.

(** [on_progress_fallback] (without [tqdm]) *)
Definition on_progress_fallback (current total : Z) : M unit :=
  s <- get ;;
  if m_startup_stopped s then ret tt
  else set_startup_stopped ;;; emit StartupSpinnerStop ;;;
       emit ParseSpinnerStart ;;; set_spinner_thread.

Definition progress_callback (current total : Z) : M unit :=
  if tqdm_available then on_progress current total
  else on_progress_fallback current total.

(** [data = yp.parse()] *)
Fixpoint run_callbacks (evs : list (Z * Z)) : M unit :=
  match evs with
  | [] => ret tt
  | (cur, tot) :: rest => progress_callback cur tot ;;; run_callbacks rest
  end.

Definition yp_parse (f : fetch_run) : M parse_data :=
  run_callbacks (f_progress f) ;;;
  match f_end f with
  | FetchReturns d => ret d
  | FetchInterrupted => raise KeyboardInterrupt
  | FetchFails => raise FetchError
  end.

(** The shutdown of the animations, written twice in [main] (in the
    [except] and in the [finally] clause).  [if pbar:] is the truth
    value of a [tqdm] bar: false when its total is 0. *)
Definition stop_animations : M unit :=
  s <- get ;;
  (if m_startup_stopped s then ret tt else emit StartupSpinnerStop) ;;;
  s <- get ;;
  match m_pbar s with
  | Some t => if negb (t =? 0) then emit PbarClose
              else if negb tqdm_available && m_spinner_thread s
                   then emit ParseSpinnerStop else ret tt
  | None => if negb tqdm_available && m_spinner_thread s
            then emit ParseSpinnerStop else ret tt
  end.

Definition main (args : cli_args) (prompt_line : ustr) (f : fetch_run) : M unit :=
  match extract_id nonascii_decimal nonascii_digit_only (input_value args prompt_line) with
  | inr e => raise (SystemExit (err_prefix ++ id_error_message e))
  | inl company_id =>
      emit StartupSpinnerStart ;;;
      data <- try_except_finally (yp_parse f)
                (stop_animations ;;; raise (SystemExit cancel_message))
                stop_animations ;;
      match build_markdown utc_offset tqdm_available (a_verbose args) data with
      | inr e => raise (DateError e)
      | inl md_text =>
          output_path <- with_fs (fun st =>
                           validate_output expand_tilde st (a_output args) company_id) ;;
          write_text output_path md_text ;;;
          emit (PrintLine (saved_prefix ++ path_text (p_parts output_path)))
      end
  end.

End Main.

(** Running [main] from a process state. *)
Definition initial_state (st : fs_state) : mstate :=
  {| m_fs := st; m_trace := []; m_startup_stopped := false; m_pbar := None;
     m_spinner_thread := false |}.

(* ------------------------------------------------------------------ *)
(** ** The patches of [yandex_reviews_parser] *)

(** [_patched_get_data_reviews]: [first] is the first [find_elements]
    result and [rescan] the one taken after scrolling to the last
    element (done when there is more than one).  Each element gives one
    item and then, when [_progress_callback] is set, one call
    [(idx, total)].  [_patched_get_data_item] may raise (the
    [IndexError] of [icon_href_of_style], the [ValueError] or
    [TypeError] of [int(float(content))]): the exception leaves the loop,
    after the calls made for the elements before.  The calls made, and
    the items or the exception. *)
Section DataReviews.

Variables (elem item err : Type) (get_data_item : elem -> item + err).

Fixpoint collect_reviews (callback_set : bool) (idx total : Z) (els : list elem)
    : list (Z * Z) * (list item + err) :=
  match els with
  | [] => ([], inl [])
  | e :: rest =>
      match get_data_item e with
      | inr x => ([], inr x)
      | inl it =>
          let '(calls, res) := collect_reviews callback_set (idx + 1) total rest in
          ((if callback_set then [(idx, total)] else []) ++ calls,
           match res with inl items => inl (it :: items) | inr x => inr x end)
      end
  end.

Definition get_data_reviews (callback_set : bool) (first rescan : list elem)
    : list (Z * Z) * (list item + err) :=
  let elements := if Nat.ltb 1 (List.length first) then rescan else first in
  collect_reviews callback_set 1 (Z.of_nat (List.length elements)) elements.

End DataReviews.

(** [icon_href.split(...)[1]], split on the double quote (code 34), in
    [_patched_get_data_item]; [None] is the [IndexError] of a style with
    no double quote, which the [except NoSuchElementException] around it
    does not catch. *)
Definition icon_href_of_style (style : ustr) : option ustr :=
  nth_error (split_on 34 style) 1.

(* ------------------------------------------------------------------ *)
(** ** The console spinner *)

(** [_SPINNER_FRAMES = "|/-\\"] *)
Definition spinner_frames : ustr := [124; 47; 45; 92].

(** The loop over [itertools.cycle(_SPINNER_FRAMES)]: [polls] is the
    number of checks of [stop_event.is_set()] that find it unset. *)
Fixpoint spinner_loop (prefix : ustr) (k polls : nat) : ustr :=
  match polls with
  | O => []
  | S p => [13] ++ prefix ++ [32; nth (k mod 4) spinner_frames 0]
           ++ spinner_loop prefix (S k) p
  end.

(** Everything [show_spinner(prefix, stop_event)] writes to stdout. *)
Definition show_spinner (prefix : ustr) (polls : nat) : ustr :=
  spinner_loop prefix 0 polls ++ [13] ++ repeat 32 (List.length prefix + 2) ++ [13].

(** The console line the spinner draws on: the characters shown and the
    cursor column.  ["\r"] returns to column 0; a character that takes one
    column replaces the one under the cursor, or extends the line. *)
Record console := { con_line : ustr; con_col : nat }.

(** The characters a terminal shows in one column each: printable ASCII
    and the Cyrillic letters of the script's messages (U+0401,
    U+0410..U+044F, U+0451).  Tabs, other control codes, wide and
    combining characters are outside this model. *)
Definition single_column (c : Z) : bool :=
  ((32 <=? c) && (c <=? 126)) || (c =? 1025) || ((1040 <=? c) && (c <=? 1103))
  || (c =? 1105).

Fixpoint put_at (line : ustr) (i : nat) (c : Z) : ustr :=
  match line, i with
  | _ :: r, O => c :: r
  | [], O => [c]
  | x :: r, S j => x :: put_at r j c
  | [], S j => 32 :: put_at [] j c
  end.

(** [None]: a character outside the model. *)
Definition console_put (t : console) (c : Z) : option console :=
  if c =? 13 then Some {| con_line := con_line t; con_col := O |}
  else if single_column c
  then Some {| con_line := put_at (con_line t) (con_col t) c; con_col := S (con_col t) |}
  else None.

Fixpoint console_write (t : console) (s : ustr) : option console :=
  match s with
  | [] => Some t
  | c :: r => match console_put t c with Some t' => console_write t' r | None => None end
  end.

(** Substring test, to read the rendered text. *)
Fixpoint is_prefix (pre s : ustr) : bool :=
  match pre, s with
  | [], _ => true
  | c :: pr, d :: sr => (c =? d) && is_prefix pr sr
  | _ :: _, [] => false
  end.

Fixpoint contains (s sub : ustr) : bool :=
  is_prefix sub s || match s with [] => false | _ :: r => contains r sub end.

(** A review with its [text] / [answer] field replaced. *)
Definition with_text (r : review) (t : option ustr) : review :=
  {| r_name := r_name r; r_icon_href := r_icon_href r; r_date := r_date r;
     r_text := t; r_stars := r_stars r; r_answer := r_answer r |}.

Definition with_answer (r : review) (a : option ustr) : review :=
  {| r_name := r_name r; r_icon_href := r_icon_href r; r_date := r_date r;
     r_text := r_text r; r_stars := r_stars r; r_answer := a |}.

(** A text that is absent, empty or whitespace only. *)
Definition text_blank (t : option ustr) : Prop :=
  match t with None => True | Some s => strip s = [] end.

(* ================================================================== *)
(** * Properties of the renderer *)

(* ================================================================== *)
(** * Fixtures and predicates used by the proofs *)

(** Two reviews render to the same block at every position. *)
Definition same_block (utc_offset : Z -> Z) (a b : review) : Prop :=
  forall idx, review_block utc_offset idx a = review_block utc_offset idx b.

Section ExtractDefs.

Variable nd : Z -> option Z.

(** What may follow the digits: ['/'], ['?'], the end of the string, or
    a newline that ends it. *)
Definition bound_after (rest : ustr) : Prop :=
  rest = [] \/ rest = [10] \/ (exists r, rest = 47 :: r) \/ (exists r, rest = 63 :: r).

(** A ['/'] at position [i], then [k >= 6] decimal digits, then a bound. *)
Definition qualifying_segment (s : ustr) (i k : nat) : Prop :=
  nth_error s i = Some 47 /\ (6 <= k)%nat /\
  (k <= List.length (skipn (S i) s))%nat /\
  Forall (fun c => is_decimal nd c = true) (firstn k (skipn (S i) s)) /\
  bound_after (skipn (S i + k) s).

(** The value of a string of decimal digits, position by position:
    the spec's [parseInt]. *)
Fixpoint decimal_number (s : ustr) : Z :=
  match s with
  | [] => 0
  | c :: r =>
      match decimal_value nd c with Some v => v | None => 0 end
      * 10 ^ Z.of_nat (List.length r) + decimal_number r
  end.

End ExtractDefs.

(** The scenario of the spec: one review of "Cafe X", in UTC. *)
Definition utc (ts : Z) : Z := 0.

Definition cafe_x : company :=
  {| c_name := u "Cafe X"; c_rating := u "4.5"; c_count_rating := u "10" |}.

Definition review_a : review :=
  {| r_name := Some (u "A"); r_icon_href := None; r_date := 1700000000;
     r_text := Some (u "Great"); r_stars := 5; r_answer := None |}.

Definition review_b : review :=
  {| r_name := Some (u "B"); r_icon_href := None; r_date := 1600000000;
     r_text := None; r_stars := 3; r_answer := Some (u " Thanks ") |}.

Definition data_ab : parse_data :=
  {| company_info := cafe_x; company_reviews := [review_a; review_b] |}.

Definition doc_ab : ustr :=
  match build_markdown utc true false data_ab with inl d => d | inr _ => [] end.

(** A review whose author name is absent ([name=None]). *)
Definition review_no_name : review :=
  {| r_name := None; r_icon_href := None; r_date := 1700000000;
     r_text := Some (u "Great"); r_stars := 5; r_answer := None |}.

Definition data_no_name : parse_data :=
  {| company_info := cafe_x; company_reviews := [review_no_name] |}.

(** A small file system: the directory [/data] holding the regular
    file [/data/notes.txt]; the working directory is [/data]. *)
Definition fs_notes : fs_state :=
  {| fs_nodes := fun q =>
       if list_eq_dec (list_eq_dec Z.eq_dec) q [u "data"] then Some Dir
       else if list_eq_dec (list_eq_dec Z.eq_dec) q [u "data"; u "notes.txt"]
            then Some File else None;
     fs_cwd := [u "data"] |}.

Definition no_tilde (w : ustr) : ustr := w.

(** No [WriteFile] in a trace. *)
Definition no_write (tr : list event) : Prop :=
  forall p t, ~ In (WriteFile p t) tr.

(** [s'] follows [s] without touching the file system and without
    writing a file. *)
Definition quiet (s s' : mstate) : Prop :=
  m_fs s' = m_fs s /\ exists extra, m_trace s' = m_trace s ++ extra /\ no_write extra.

(** With [tqdm], a bar exists once the start-up spinner is stopped. *)
Definition pbar_inv (tq : bool) (s : mstate) : Prop :=
  tq = true -> m_startup_stopped s = true -> m_pbar s <> None.

(** An interrupt after two progress callbacks, with [tqdm]. *)
Definition args_demo : cli_args :=
  {| a_input := Some (u "https://yandex.ru/maps/org/cafe/1234567/reviews/");
     a_output := Some (u "out.md"); a_verbose := false |}.

Definition fetch_interrupted_demo : fetch_run :=
  {| f_progress := [(1, 3); (2, 3)]; f_end := FetchInterrupted |}.

(** The calls [_patched_get_data_reviews] makes for [n] elements:
    [(1, n), (2, n), ..., (n, n)]. *)
Definition progress_calls (n : nat) : list (Z * Z) :=
  map (fun i => (Z.of_nat i, Z.of_nat n)) (seq 1 n).

(** The Gregorian calendar, to judge the dates [fmt_date] prints. *)
Definition leap_year (y : Z) : bool :=
  (y mod 4 =? 0) && (negb (y mod 100 =? 0) || (y mod 400 =? 0)).

Definition days_in_month (y m : Z) : Z :=
  if m =? 2 then (if leap_year y then 29 else 28)
  else if (m =? 4) || (m =? 6) || (m =? 9) || (m =? 11) then 30 else 31.

Definition valid_date (y m d : Z) : bool :=
  (1 <=? m) && (m <=? 12) && (1 <=? d) && (d <=? days_in_month y m).

(** [f k] for [k = start .. start + n - 1]. *)
Fixpoint all_from (f : Z -> bool) (start : Z) (n : nat) : bool :=
  match n with O => true | S n' => f start && all_from f (start + 1) n' end.

(** The check of one day number of a 400-year cycle. *)
Definition civil_day_ok (doe : Z) : bool :=
  let '(y, m, d) := civil_from_days (doe - 719468) in valid_date y m d.

(** What [_validate_output] may do to the file system: add directories,
    never remove or change an entry, never move the working directory. *)
Definition grows (st st' : fs_state) : Prop :=
  fs_cwd st' = fs_cwd st /\
  (forall k n, fs_nodes st k = Some n -> fs_nodes st' k = Some n) /\
  (forall k n, fs_nodes st' k = Some n -> fs_nodes st k = Some n \/ n = Dir).


(** The events of a fetch that returns after the progress calls for [n]
    elements, from stopping the start-up spinner to the [finally] block. *)
Definition fetch_success_events (tq : bool) (n : nat) : list event :=
  StartupSpinnerStop ::
  match n with
  | O => []
  | S _ => if tq then PbarCreate (Z.of_nat n) :: map PbarSetN (map Z.of_nat (seq 1 n)) ++ [PbarClose]
           else [ParseSpinnerStart; ParseSpinnerStop]
  end.

(** A fetch of the two reviews of [data_ab]. *)
Definition fetch_ok_demo : fetch_run :=
  {| f_progress := progress_calls 2; f_end := FetchReturns data_ab |}.

(** [/data/out.md] *)
Definition out_md_demo : path :=
  {| p_abs := true; p_parts := [u "data"; u "out.md"] |}.

(** A review dated in the year 33658, past what [datetime] accepts. *)
Definition review_far : review :=
  {| r_name := Some (u "C"); r_icon_href := None; r_date := 1000000000000;
     r_text := Some (u "Ok"); r_stars := 4; r_answer := None |}.
Definition data_far : parse_data :=
  {| company_info := cafe_x; company_reviews := [review_a; review_far] |}.
(** A fetch of [data_far]. *)
Definition fetch_far_demo : fetch_run :=
  {| f_progress := progress_calls 2; f_end := FetchReturns data_far |}.
(** A fetch that fails after one progress call. *)
Definition fetch_fails_demo : fetch_run :=
  {| f_progress := [(1, 3)]; f_end := FetchFails |}.

(** An output path below a regular file. *)
Definition args_in_file : cli_args :=
  {| a_input := Some (u "1234567"); a_output := Some (u "/data/notes.txt/out.md");
     a_verbose := false |}.

(** The three animations of [main]: the start-up spinner, the parsing
    spinner of the fallback, and the [tqdm] bar. *)
Inductive animation := StartupSpinner | ParseSpinner | ProgressBar.

Definition starts (a : animation) (e : event) : bool :=
  match a, e with
  | StartupSpinner, StartupSpinnerStart => true
  | ParseSpinner, ParseSpinnerStart => true
  | ProgressBar, PbarCreate _ => true
  | _, _ => false
  end.

Definition stops (a : animation) (e : event) : bool :=
  match a, e with
  | StartupSpinner, StartupSpinnerStop => true
  | ParseSpinner, ParseSpinnerStop => true
  | ProgressBar, PbarClose => true
  | _, _ => false
  end.

(** Whether the animation runs after an event. *)
Definition run_step (a : animation) (on : bool) (e : event) : bool :=
  if starts a e then true else if stops a e then false else on.

(** Whether the animation still runs at the end of a trace. *)
Definition running_after (a : animation) (tr : list event) : bool :=
  fold_left (run_step a) tr false.

(** Events that neither start nor stop an animation. *)
Definition neutral (e : event) : bool :=
  match e with
  | PbarSetTotal _ | PbarSetN _ | WriteFile _ _ | PrintLine _ => true
  | _ => false
  end.

Section RenderFacts.

Variable utc_offset : Z -> Z.

Lemma render_loop_blocks : forall items sb v tot md ev md' ev',
  render_loop utc_offset sb v tot items md ev = inl (md', ev') ->
  exists blocks, md' = md ++ List.concat blocks /\
    Forall2 (fun p b => review_block utc_offset (fst p) (snd p) = inl b) items blocks.
Proof.
  induction items as [|[idx r] rest IH]; simpl; intros sb v tot md ev md' ev' H.
  - inversion H; subst. exists []. split; [simpl; rewrite app_nil_r; reflexivity | constructor].
  - destruct (review_block utc_offset idx r) as [b|e] eqn:Hb; [|discriminate].
    apply IH in H as [blocks [-> Hf]].
    exists (b :: blocks). split.
    + simpl. rewrite app_assoc. reflexivity.
    + constructor; assumption.
Qed.

Lemma nth_error_enumerate : forall {A} (l : list A) i n,
  nth_error (enumerate i l) n = option_map (fun x => (i + Z.of_nat n, x)) (nth_error l n).
Proof.
  induction l as [|x l IH]; intros i n; destruct n as [|n]; simpl; auto.
  - rewrite Z.add_0_r. reflexivity.
  - rewrite IH. destruct (nth_error l n); simpl; auto.
    f_equal. f_equal. lia.
Qed.

Lemma Forall2_nth_left : forall {A B} (R : A -> B -> Prop) l1 l2 n x,
  Forall2 R l1 l2 -> nth_error l1 n = Some x ->
  exists y, nth_error l2 n = Some y /\ R x y.
Proof.
  intros A B R l1 l2 n x H; revert n.
  induction H as [|a b l1 l2 Hab _ IH]; intros [|n] Hn; simpl in *; try discriminate.
  - inversion Hn; subst. eauto.
  - apply IH; assumption.
Qed.

Lemma length_enumerate : forall {A} (l : list A) i,
  List.length (enumerate i l) = List.length l.
Proof. induction l; simpl; auto. Qed.

(** The document as the header followed by one block per review, in
    order. *)
Lemma build_markdown_blocks : forall tq v d doc,
  build_markdown utc_offset tq v d = inl doc ->
  exists blocks,
    doc = join nl (md_header (company_info d) ++ List.concat blocks) /\
    List.length blocks = List.length (company_reviews d) /\
    forall i r, nth_error (company_reviews d) i = Some r ->
      exists b, nth_error blocks i = Some b /\
                review_block utc_offset (Z.of_nat (S i)) r = inl b.
Proof.
  intros tq v d doc H.
  unfold build_markdown, build_markdown_run in H.
  destruct (render_loop _ _ _ _ _ _ _) as [[md ev]|e] eqn:Hl; [|discriminate].
  simpl in H. inversion H; subst doc.
  apply render_loop_blocks in Hl as [blocks [-> Hf]].
  exists blocks. split; [reflexivity|]. split.
  - rewrite <- (length_enumerate (company_reviews d) 1).
    symmetry. eapply Forall2_length; eassumption.
  - intros i r Hi.
    assert (He : nth_error (enumerate 1 (company_reviews d)) i
                 = Some (Z.of_nat (S i), r)).
    { rewrite nth_error_enumerate, Hi. cbn [option_map].
      rewrite Nat2Z.inj_succ. f_equal. f_equal. lia. }
    destruct (Forall2_nth_left _ _ _ _ _ Hf He) as [b [Hb Hr]].
    exists b. split; assumption.
Qed.

Lemma render_loop_md_indep : forall items sb1 v1 sb2 v2 tot md ev1 ev2,
  match render_loop utc_offset sb1 v1 tot items md ev1 with
  | inl (m, _) => inl m | inr e => inr e end
  = match render_loop utc_offset sb2 v2 tot items md ev2 with
    | inl (m, _) => inl m | inr e => inr e end.
Proof.
  induction items as [|[idx r] rest IH]; intros; simpl; [reflexivity|].
  destruct (review_block utc_offset idx r); [apply IH | reflexivity].
Qed.

Lemma render_loop_congr : forall items1 items2,
  Forall2 (fun p q => fst p = fst q /\ same_block utc_offset (snd p) (snd q)) items1 items2 ->
  forall sb v tot md ev,
  render_loop utc_offset sb v tot items1 md ev
  = render_loop utc_offset sb v tot items2 md ev.
Proof.
  intros items1 items2 H.
  induction H as [|[i1 r1] [i2 r2] l1 l2 [Hi Hr] _ IH]; intros; simpl in *; [reflexivity|].
  subst i2. rewrite Hr. destruct (review_block utc_offset i1 r2); [apply IH | reflexivity].
Qed.

Lemma enumerate_congr : forall l1 l2 i,
  Forall2 (same_block utc_offset) l1 l2 ->
  Forall2 (fun p q => fst p = fst q /\ same_block utc_offset (snd p) (snd q))
          (enumerate i l1) (enumerate i l2).
Proof.
  intros l1 l2 i H; revert i.
  induction H as [|a b l1 l2 Hab _ IH]; intros i; simpl; constructor; auto.
Qed.

Lemma build_markdown_congr : forall tq v c l1 l2,
  Forall2 (same_block utc_offset) l1 l2 ->
  build_markdown utc_offset tq v {| company_info := c; company_reviews := l1 |}
  = build_markdown utc_offset tq v {| company_info := c; company_reviews := l2 |}.
Proof.
  intros tq v c l1 l2 H.
  unfold build_markdown, build_markdown_run; simpl.
  rewrite (Forall2_length H).
  rewrite (render_loop_congr _ _ (enumerate_congr _ _ 1 H)).
  reflexivity.
Qed.

Lemma Forall2_same_block_middle : forall pre post a b,
  same_block utc_offset a b -> Forall2 (same_block utc_offset) (pre ++ a :: post) (pre ++ b :: post).
Proof.
  intros pre post a b Hab.
  apply Forall2_app.
  - induction pre; constructor; [intro; reflexivity | assumption].
  - constructor; [assumption|].
    induction post; constructor; [intro; reflexivity | assumption].
Qed.

Lemma review_body_blank : forall r,
  text_blank (r_text r) -> review_body r = no_text_placeholder.
Proof.
  intros r H. unfold review_body.
  destruct (r_text r) as [t|]; simpl in H.
  - rewrite H. reflexivity.
  - reflexivity.
Qed.

Lemma same_block_blank_text : forall r t1 t2,
  text_blank t1 -> text_blank t2 -> same_block utc_offset (with_text r t1) (with_text r t2).
Proof.
  intros r t1 t2 H1 H2 idx. unfold review_block.
  rewrite (review_body_blank (with_text r t1) H1),
          (review_body_blank (with_text r t2) H2).
  reflexivity.
Qed.

Lemma same_block_empty_answer : forall r a1 a2,
  (a1 = None \/ a1 = Some []) -> (a2 = None \/ a2 = Some []) ->
  same_block utc_offset (with_answer r a1) (with_answer r a2).
Proof.
  intros r a1 a2 H1 H2 idx. unfold review_block.
  assert (E : review_answer (with_answer r a1) = review_answer (with_answer r a2)).
  { unfold review_answer; simpl.
    destruct H1 as [-> | ->]; destruct H2 as [-> | ->]; reflexivity. }
  rewrite E. reflexivity.
Qed.

End RenderFacts.

(** [C1] [build_markdown] renders one block per review, in order: the
    document is the header followed by exactly [len(reviews)] blocks,
    and block [i] (0-based) opens with the subheading numbered [i+1]
    built from [reviews[i]] and its date. *)
Theorem build_markdown_preserves_reviews : forall uo tq v d doc,
  build_markdown uo tq v d = inl doc ->
  exists blocks,
    doc = join nl (md_header (company_info d) ++ List.concat blocks) /\
    List.length blocks = List.length (company_reviews d) /\
    forall i r, nth_error (company_reviews d) i = Some r ->
      exists date_str rest,
        nth_error blocks i = Some (subheading (Z.of_nat (S i)) r date_str :: rest) /\
        fmt_date uo (r_date r) = inl date_str.
Proof.
  intros uo tq v d doc H.
  destruct (build_markdown_blocks uo tq v d doc H) as [blocks [Hdoc [Hlen Hnth]]].
  exists blocks. split; [exact Hdoc|]. split; [exact Hlen|].
  intros i r Hi. destruct (Hnth i r Hi) as [b [Hb Hr]].
  unfold review_block in Hr.
  destruct (fmt_date uo (r_date r)) as [date_str|e] eqn:Hd; [|discriminate].
  inversion Hr; subst b.
  exists date_str. eexists. split; [exact Hb | reflexivity].
Qed.

Lemma build_markdown_preserves_reviews_witness :
  build_markdown utc true false data_ab = inl doc_ab /\
  exists blocks,
    doc_ab = join nl (md_header cafe_x ++ List.concat blocks) /\
    List.length blocks = 2%nat /\
    forall i r, nth_error [review_a; review_b] i = Some r ->
      exists date_str rest,
        nth_error blocks i = Some (subheading (Z.of_nat (S i)) r date_str :: rest) /\
        fmt_date utc (r_date r) = inl date_str.
Proof.
  split; [vm_compute; reflexivity|].
  apply (build_markdown_preserves_reviews utc true false data_ab doc_ab).
  vm_compute; reflexivity.
Defined.

(** [C4] (defect) With the author name absent ([None]) the subheading
    carries Python's text of [None], ["None"], in place of a name: the
    f-string formats [review['name']] as it is, with no fallback. *)
Theorem build_markdown_absent_name_prints_None :
  exists doc, build_markdown utc true false data_no_name = inl doc /\
    contains doc (u "### 1. None — 14.11.2023") = true.
Proof.
  eexists. split; [vm_compute; reflexivity | vm_compute; reflexivity].
Qed.

(** [C5] A review whose text is absent, empty or blank gets the
    placeholder ["_(текст отсутствует)_"] as its body: the document is
    the header followed by exactly one block per review, in order, block
    [j] being the one the loop appends for [reviews[j]]; and the block of
    such a review [i] is its subheading, its rating line, the (non-empty)
    placeholder, its reply if any, and the separator. *)
Theorem build_markdown_missing_text_placeholder : forall uo tq v d doc i r,
  build_markdown uo tq v d = inl doc ->
  nth_error (company_reviews d) i = Some r ->
  text_blank (r_text r) ->
  exists blocks date_str,
    doc = join nl (md_header (company_info d) ++ List.concat blocks) /\
    List.length blocks = List.length (company_reviews d) /\
    (forall j r', nth_error (company_reviews d) j = Some r' ->
       exists b, nth_error blocks j = Some b /\
                 review_block uo (Z.of_nat (S j)) r' = inl b) /\
    fmt_date uo (r_date r) = inl date_str /\
    nth_error blocks i
    = Some ([subheading (Z.of_nat (S i)) r date_str;
             s_stars ++ py_str_int (r_stars r) ++ s_of5 ++ nl;
             no_text_placeholder] ++ review_answer r ++ [s_rule]) /\
    no_text_placeholder <> [].
Proof.
  intros uo tq v d doc i r H Hi Ht.
  destruct (build_markdown_blocks uo tq v d doc H) as [blocks [Hdoc [Hlen Hnth]]].
  destruct (Hnth i r Hi) as [b [Hb Hr]].
  unfold review_block in Hr.
  destruct (fmt_date uo (r_date r)) as [date_str|e] eqn:Hd; [|discriminate].
  exists blocks, date_str. split; [exact Hdoc|]. split; [exact Hlen|].
  split; [exact Hnth|]. split; [reflexivity|].
  split; [|discriminate].
  inversion Hr; subst b. rewrite Hb.
  rewrite (review_body_blank r Ht). reflexivity.
Qed.

Lemma build_markdown_missing_text_placeholder_witness :
  build_markdown utc true false data_ab = inl doc_ab /\
  nth_error (company_reviews data_ab) 1 = Some review_b /\
  text_blank (r_text review_b) /\
  exists blocks date_str,
    doc_ab = join nl (md_header (company_info data_ab) ++ List.concat blocks) /\
    List.length blocks = List.length (company_reviews data_ab) /\
    (forall j r', nth_error (company_reviews data_ab) j = Some r' ->
       exists b, nth_error blocks j = Some b /\
                 review_block utc (Z.of_nat (S j)) r' = inl b) /\
    fmt_date utc (r_date review_b) = inl date_str /\
    nth_error blocks 1
    = Some ([subheading (Z.of_nat 2) review_b date_str;
             s_stars ++ py_str_int (r_stars review_b) ++ s_of5 ++ nl;
             no_text_placeholder] ++ review_answer review_b ++ [s_rule]) /\
    no_text_placeholder <> [].
Proof.
  assert (H1 : build_markdown utc true false data_ab = inl doc_ab) by (vm_compute; reflexivity).
  assert (H2 : nth_error (company_reviews data_ab) 1 = Some review_b) by reflexivity.
  assert (H3 : text_blank (r_text review_b)) by exact I.
  split; [exact H1|]. split; [exact H2|]. split; [exact H3|].
  exact (build_markdown_missing_text_placeholder utc true false data_ab doc_ab 1 review_b H1 H2 H3).
Defined.

(** [C9] The returned text depends neither on [verbose] nor on whether
    [tqdm] is available: the bar and the log lines are side output only.
    Being a function of its inputs (and of the local time zone), the
    text is the same on every call with the same inputs. *)
Theorem build_markdown_verbose_independent : forall uo tq1 tq2 v1 v2 d,
  build_markdown uo tq1 v1 d = build_markdown uo tq2 v2 d.
Proof.
  intros uo tq1 tq2 v1 v2 d.
  unfold build_markdown, build_markdown_run.
  pose proof (render_loop_md_indep uo (enumerate 1 (company_reviews d))
                (tq1 && negb v1) v1 (tq2 && negb v2) v2
                (Z.of_nat (List.length (company_reviews d)))
                (md_header (company_info d)) [] []) as E.
  destruct (render_loop uo (tq1 && negb v1) v1 _ _ _ _) as [[m1 e1]|x1];
  destruct (render_loop uo (tq2 && negb v2) v2 _ _ _ _) as [[m2 e2]|x2];
  simpl in *; try discriminate; inversion E; subst; reflexivity.
Qed.

(** [C10] An absent, empty or whitespace-only text renders the same, and
    so do an absent and an empty company reply. *)
Theorem build_markdown_blank_fields_equiv :
  forall uo tq v c pre post r t1 t2 a1 a2,
  text_blank t1 -> text_blank t2 ->
  (a1 = None \/ a1 = Some []) -> (a2 = None \/ a2 = Some []) ->
  build_markdown uo tq v {| company_info := c; company_reviews := pre ++ with_text r t1 :: post |}
  = build_markdown uo tq v {| company_info := c; company_reviews := pre ++ with_text r t2 :: post |}
  /\
  build_markdown uo tq v {| company_info := c; company_reviews := pre ++ with_answer r a1 :: post |}
  = build_markdown uo tq v {| company_info := c; company_reviews := pre ++ with_answer r a2 :: post |}.
Proof.
  intros uo tq v c pre post r t1 t2 a1 a2 Ht1 Ht2 Ha1 Ha2.
  split; apply build_markdown_congr, Forall2_same_block_middle.
  - apply same_block_blank_text; assumption.
  - apply same_block_empty_answer; assumption.
Qed.

Lemma build_markdown_blank_fields_equiv_witness :
  text_blank None /\ text_blank (Some (u "  ")) /\
  build_markdown utc true false
    {| company_info := cafe_x; company_reviews := [review_a] ++ with_text review_b None :: [] |}
  = build_markdown utc true false
    {| company_info := cafe_x; company_reviews := [review_a] ++ with_text review_b (Some (u "  ")) :: [] |}
  /\
  build_markdown utc true false
    {| company_info := cafe_x; company_reviews := [review_a] ++ with_answer review_b None :: [] |}
  = build_markdown utc true false
    {| company_info := cafe_x; company_reviews := [review_a] ++ with_answer review_b (Some []) :: [] |}.
Proof.
  split; [exact I|]. split; [reflexivity|].
  apply (build_markdown_blank_fields_equiv utc true false cafe_x [review_a] []
           review_b None (Some (u "  ")) None (Some [])).
  - exact I.
  - reflexivity.
  - left; reflexivity.
  - right; reflexivity.
Defined.

(* ================================================================== *)
(** * Properties of [extract_id] *)

Section ExtractFacts.

Variable nd : Z -> option Z.
Variable dg : Z -> bool.

Lemma int_digits_value : forall s acc,
  Forall (fun c => is_decimal nd c = true) s ->
  int_digits nd acc s = Some (acc * 10 ^ Z.of_nat (List.length s) + decimal_number nd s).
Proof.
  induction s as [|c r IH]; intros acc H; cbn [int_digits decimal_number].
  - f_equal. simpl. lia.
  - inversion H as [|? ? Hc Hr]; subst.
    unfold is_decimal in Hc.
    destruct (decimal_value nd c) as [v|]; [|discriminate].
    rewrite (IH _ Hr). f_equal.
    change (List.length (c :: r)) with (S (List.length r)).
    rewrite Nat2Z.inj_succ, Z.pow_succ_r by lia; ring.
Qed.

Lemma digit_prefix_all : forall s,
  Forall (fun c => is_decimal nd c = true) s -> digit_prefix nd s = s.
Proof.
  induction s as [|c r IH]; intro H; [reflexivity|].
  inversion H as [|? ? Hc Hr]; subst. cbn [digit_prefix]. rewrite Hc, IH by exact Hr.
  reflexivity.
Qed.

Lemma py_int_decimal : forall s,
  s <> [] -> Forall (fun c => is_decimal nd c = true) s ->
  (List.length s <= int_max_str_digits)%nat ->
  py_int nd s = inl (decimal_number nd s).
Proof.
  intros s Hne H Hlen. unfold py_int.
  rewrite (digit_prefix_all s H).
  replace (Nat.ltb int_max_str_digits (List.length s)) with false
    by (symmetry; apply Nat.ltb_ge; exact Hlen).
  destruct s as [|c r]; [congruence|].
  rewrite (int_digits_value _ 0 H). reflexivity.
Qed.


Lemma not_decimal_ascii : forall c, (c < 48 \/ 57 < c < 128) -> is_decimal nd c = false.
Proof.
  intros c Hc. unfold is_decimal, decimal_value.
  destruct Hc as [Hc|Hc].
  - replace ((48 <=? c) && (c <=? 57)) with false
      by (symmetry; apply andb_false_iff; left; apply Z.leb_gt; lia).
    replace (c <? 128) with true by (symmetry; apply Z.ltb_lt; lia). reflexivity.
  - replace ((48 <=? c) && (c <=? 57)) with false
      by (symmetry; apply andb_false_iff; right; apply Z.leb_gt; lia).
    replace (c <? 128) with true by (symmetry; apply Z.ltb_lt; lia). reflexivity.
Qed.

Lemma digit_prefix_decimal : forall body k,
  (k <= List.length (digit_prefix nd body))%nat ->
  Forall (fun c => is_decimal nd c = true) (firstn k body) /\ (k <= List.length body)%nat.
Proof.
  induction body as [|c r IH]; intros k Hk; simpl in *.
  - assert (k = 0%nat) by lia. subst. simpl. split; [constructor | lia].
  - destruct k as [|k]; [simpl; split; [constructor | lia]|].
    destruct (is_decimal nd c) eqn:Hc; simpl in Hk; [|lia].
    destruct (IH k ltac:(lia)) as [Hf Hl]. simpl.
    split; [constructor; assumption | lia].
Qed.

Lemma digit_prefix_exact : forall body k,
  (k <= List.length body)%nat ->
  Forall (fun c => is_decimal nd c = true) (firstn k body) ->
  (skipn k body = [] \/ exists c r, skipn k body = c :: r /\ is_decimal nd c = false) ->
  List.length (digit_prefix nd body) = k.
Proof.
  induction body as [|c r IH]; intros k Hk Hf Hs; simpl in *.
  - lia.
  - destruct k as [|k]; simpl in *.
    + destruct Hs as [Hs|[c' [r' [Hs Hc]]]]; [discriminate|].
      inversion Hs; subst. rewrite Hc. reflexivity.
    + inversion Hf as [|? ? Hc Hr]; subst. rewrite Hc. simpl.
      f_equal. apply IH; auto. lia.
Qed.

Lemma greedy_try_some : forall n body k,
  greedy_try n body = Some k -> (6 <= k <= n)%nat /\ tail_ok (skipn k body) = true.
Proof.
  induction n as [|m IH]; intros body k H; [discriminate|].
  change (greedy_try (S m) body) with
    (if Nat.ltb (S m) 6 then None
     else if tail_ok (skipn (S m) body) then Some (S m) else greedy_try m body) in H.
  destruct (Nat.ltb (S m) 6) eqn:Hlt; [discriminate|].
  apply Nat.ltb_ge in Hlt.
  destruct (tail_ok (skipn (S m) body)) eqn:Ht.
  - inversion H; subst. split; [lia | assumption].
  - destruct (IH body k H) as [Hk Hok]. split; [lia | assumption].
Qed.

Lemma greedy_try_full : forall n body,
  (6 <= n)%nat -> tail_ok (skipn n body) = true -> greedy_try n body = Some n.
Proof.
  intros [|m] body Hn Ht; [lia|].
  change (greedy_try (S m) body) with
    (if Nat.ltb (S m) 6 then None
     else if tail_ok (skipn (S m) body) then Some (S m) else greedy_try m body).
  replace (Nat.ltb (S m) 6) with false by (symmetry; apply Nat.ltb_ge; lia).
  rewrite Ht. reflexivity.
Qed.

Lemma tail_ok_bound : forall rest, tail_ok rest = true -> bound_after rest.
Proof.
  intros [|c [|d r]] H; unfold bound_after; simpl in H.
  - left; reflexivity.
  - repeat rewrite orb_true_iff in H. rewrite !Z.eqb_eq in H.
    destruct H as [[->| ->]| ->]; [right; left | right; right; left | right; right; right];
      eauto.
  - rewrite orb_true_iff, !Z.eqb_eq in H.
    destruct H as [-> | ->]; [right; right; left | right; right; right]; eauto.
Qed.

Lemma bound_tail_ok : forall rest, bound_after rest -> tail_ok rest = true.
Proof.
  intros rest [->|[->|[[r ->]|[r ->]]]]; try reflexivity;
    destruct r; reflexivity.
Qed.

Lemma bound_not_digit : forall rest, bound_after rest ->
  rest = [] \/ exists c r, rest = c :: r /\ is_decimal nd c = false.
Proof.
  intros rest [->|[->|[[r ->]|[r ->]]]]; [left; reflexivity| right ..];
    eexists; eexists; (split; [reflexivity | apply not_decimal_ascii; lia]).
Qed.

Lemma match_at_some : forall t g,
  match_at nd t = Some g ->
  exists body k, t = 47 :: body /\ (6 <= k)%nat /\ (k <= List.length body)%nat /\
    Forall (fun c => is_decimal nd c = true) (firstn k body) /\ bound_after (skipn k body) /\
    g = firstn k body.
Proof.
  intros [|c body] g H; simpl in H; [discriminate|].
  destruct (c =? 47) eqn:Hc; [|discriminate]. apply Z.eqb_eq in Hc. subst c.
  destruct (greedy_try _ body) as [k|] eqn:Hg; [|discriminate].
  inversion H; subst g.
  destruct (greedy_try_some _ _ _ Hg) as [Hk Ht].
  destruct (digit_prefix_decimal body k ltac:(lia)) as [Hf Hl].
  exists body, k. repeat split; auto; try lia.
  apply tail_ok_bound; assumption.
Qed.

Lemma match_at_segment : forall body k,
  (6 <= k)%nat -> (k <= List.length body)%nat ->
  Forall (fun c => is_decimal nd c = true) (firstn k body) -> bound_after (skipn k body) ->
  match_at nd (47 :: body) = Some (firstn k body).
Proof.
  intros body k H6 Hl Hf Hb. simpl.
  rewrite (digit_prefix_exact body k Hl Hf (bound_not_digit _ Hb)).
  rewrite greedy_try_full; [reflexivity | assumption | apply bound_tail_ok; assumption].
Qed.

Lemma re_search_first : forall s j g,
  match_at nd (skipn j s) = Some g ->
  (forall j', (j' < j)%nat -> match_at nd (skipn j' s) = None) ->
  re_search nd s = Some g.
Proof.
  induction s as [|c r IH]; intros j g H Hbefore.
  - destruct j; simpl in H; discriminate.
  - cbn [re_search]. destruct j as [|j].
    + cbn [skipn] in H. rewrite H. reflexivity.
    + pose proof (Hbefore 0%nat ltac:(lia)) as H0. cbn [skipn] in H0.
      rewrite H0. cbn [skipn] in H.
      apply (IH j); [exact H|].
      intros j' Hj'. apply (Hbefore (S j')). lia.
Qed.

Lemma re_search_none : forall s,
  (forall j, match_at nd (skipn j s) = None) -> re_search nd s = None.
Proof.
  induction s as [|c r IH]; intros H; cbn [re_search]; [reflexivity|].
  pose proof (H 0%nat) as H0. cbn [skipn] in H0. rewrite H0.
  apply IH. intro j. apply (H (S j)).
Qed.

Lemma skipn_nth_error : forall (s : ustr) i c,
  nth_error s i = Some c -> skipn i s = c :: skipn (S i) s.
Proof.
  induction s as [|d r IH]; intros [|i] c H; simpl in *; try discriminate.
  - inversion H; reflexivity.
  - apply IH; assumption.
Qed.

Lemma skipn_cons_nth_error : forall (s : ustr) j c body,
  skipn j s = c :: body -> nth_error s j = Some c /\ skipn (S j) s = body.
Proof.
  induction s as [|d r IH]; intros [|j] c body H; simpl in *; try discriminate.
  - inversion H; subst. split; reflexivity.
  - apply IH; assumption.
Qed.

(** A match of the regular expression at position [j] is a qualifying
    segment there, and conversely. *)
Lemma match_at_qualifying : forall s j g,
  match_at nd (skipn j s) = Some g -> exists k, qualifying_segment nd s j k.
Proof.
  intros s j g H.
  destruct (match_at_some _ _ H) as [body [k [Hs [H6 [Hl [Hf [Hb _]]]]]]].
  destruct (skipn_cons_nth_error s j 47 body Hs) as [Hn Hsk].
  exists k. unfold qualifying_segment.
  rewrite Hsk. repeat split; auto.
  replace (S j + k)%nat with (k + S j)%nat by lia.
  rewrite <- skipn_skipn, Hsk. assumption.
Qed.

Lemma qualifying_match_at : forall s i k,
  qualifying_segment nd s i k ->
  match_at nd (skipn i s) = Some (firstn k (skipn (S i) s)).
Proof.
  intros s i k [Hn [H6 [Hl [Hf Hb]]]].
  rewrite (skipn_nth_error s i 47 Hn).
  apply match_at_segment; auto.
  rewrite skipn_skipn. replace (k + S i)%nat with (S i + k)%nat by lia. assumption.
Qed.

Lemma slash_not_isdigit : forall s i,
  nth_error s i = Some 47 -> py_isdigit nd dg s = false.
Proof.
  intros s i H. unfold py_isdigit.
  destruct s as [|c r]; [reflexivity|].
  apply not_true_iff_false. intro Hall.
  rewrite forallb_forall in Hall.
  specialize (Hall 47 (nth_error_In _ _ H)).
  rewrite not_decimal_ascii in Hall by lia. discriminate.
Qed.

End ExtractFacts.

(** [C2] (as the code does it) When the input contains ['/'] followed
    by at least six decimal digits and then ['/'], ['?'], the end of the
    string or a newline ending it, [extract_id] returns the value of the
    digits of the leftmost such segment, provided that run has at most
    4300 digits ([int()]'s limit). *)
Theorem extract_id_first_segment : forall nd dg s i k,
  qualifying_segment nd s i k ->
  (forall j k', qualifying_segment nd s j k' -> (i <= j)%nat) ->
  (k <= int_max_str_digits)%nat ->
  extract_id nd dg s = inl (decimal_number nd (firstn k (skipn (S i) s))).
Proof.
  intros nd dg s i k Hq Hmin Hk.
  unfold extract_id.
  pose proof Hq as [Hn Hrest].
  rewrite (slash_not_isdigit nd dg s i Hn).
  rewrite (re_search_first nd s i _ (qualifying_match_at nd s i k Hq)).
  - destruct Hrest as [H6 [Hl [Hf _]]].
    rewrite py_int_decimal; [reflexivity| |exact Hf|].
    + intro E. apply (f_equal (@List.length Z)) in E.
      rewrite length_firstn in E. cbn [List.length] in E. lia.
    + rewrite length_firstn. lia.
  - intros j' Hj'.
    destruct (match_at nd (skipn j' s)) as [g|] eqn:Hm; [|reflexivity].
    destruct (match_at_qualifying nd s j' g Hm) as [k' Hq''].
    specialize (Hmin j' k' Hq''). lia.
Qed.

Lemma extract_id_first_segment_witness :
  qualifying_segment latin1_decimal (u "/1234567?x") 0 7 /\ (7 <= int_max_str_digits)%nat /\
  extract_id latin1_decimal latin1_digit_only (u "/1234567?x")
  = inl (decimal_number latin1_decimal (firstn 7 (skipn 1 (u "/1234567?x")))) /\
  decimal_number latin1_decimal (firstn 7 (skipn 1 (u "/1234567?x"))) = 1234567.
Proof.
  assert (Hq : qualifying_segment latin1_decimal (u "/1234567?x") 0 7).
  { unfold qualifying_segment. split; [reflexivity|]. split; [lia|].
    split; [vm_compute; lia|]. split.
    - vm_compute. repeat constructor.
    - right; right; right. eexists. reflexivity. }
  assert (Hk : (7 <= int_max_str_digits)%nat) by (vm_compute; lia).
  split; [exact Hq|]. split; [exact Hk|]. split; [|vm_compute; reflexivity].
  apply (extract_id_first_segment latin1_decimal latin1_digit_only _ 0 7 Hq).
  - intros j k' _. lia.
  - exact Hk.
Defined.

(** [C2] counterexample: a seven-digit run after a ['?'] and at the end
    of the string is not taken: the pattern wants a ['/'] before the
    digits, and [extract_id] raises instead of returning 1234567.  And a
    run of 4301 digits after ['/'] is found, but [int()] refuses it with
    the limit error instead of returning its value. *)
Lemma extract_id_query_marker_run_rejected :
  extract_id latin1_decimal latin1_digit_only (u "x?1234567") = inr NoIdFound /\
  extract_id latin1_decimal latin1_digit_only (47 :: repeat 49 4301) = inr (IntLimit 4301).
Proof. split; vm_compute; reflexivity. Qed.

(** [C3] (as the code does it) An input that [str.isdigit] rejects and
    that has no qualifying segment raises the script's [ValueError],
    whose message is the fixed text [no_id_message]. *)
Theorem extract_id_no_segment_fails : forall nd dg s,
  py_isdigit nd dg s = false ->
  (forall i k, ~ qualifying_segment nd s i k) ->
  extract_id nd dg s = inr NoIdFound /\ id_error_message NoIdFound = no_id_message.
Proof.
  intros nd dg s Hd Hno. split; [|reflexivity].
  unfold extract_id. rewrite Hd.
  rewrite re_search_none; [reflexivity|].
  intro j. destruct (match_at nd (skipn j s)) as [g|] eqn:Hm; [|reflexivity].
  destruct (match_at_qualifying nd s j g Hm) as [k Hq].
  exfalso. exact (Hno j k Hq).
Qed.

Lemma extract_id_no_segment_fails_witness :
  py_isdigit latin1_decimal latin1_digit_only (u "abc") = false /\
  (forall i k, ~ qualifying_segment latin1_decimal (u "abc") i k) /\
  extract_id latin1_decimal latin1_digit_only (u "abc") = inr NoIdFound /\
  id_error_message NoIdFound = no_id_message.
Proof.
  assert (Hno : forall i k, ~ qualifying_segment latin1_decimal (u "abc") i k).
  { intros i k [Hn _].
    destruct i as [|[|[|i]]]; vm_compute in Hn; try discriminate.
    destruct i; discriminate. }
  split; [reflexivity|]. split; [exact Hno|].
  apply extract_id_no_segment_fails; [reflexivity | exact Hno].
Defined.

(** [C3] counterexample: the error for ["abc"] carries the fixed message,
    which does not name the input. *)
Lemma extract_id_error_omits_input :
  extract_id latin1_decimal latin1_digit_only (u "abc") = inr NoIdFound /\
  contains (id_error_message NoIdFound) (u "abc") = false.
Proof. split; vm_compute; reflexivity. Qed.

(** [C8] (as the code does it) A non-empty string of at most 4300
    decimal digits ([int()]'s limit) is parsed as a whole: [extract_id s]
    is the positional value of its digits. *)
Theorem extract_id_numeric : forall nd dg s,
  s <> [] -> Forall (fun c => is_decimal nd c = true) s ->
  (List.length s <= int_max_str_digits)%nat ->
  extract_id nd dg s = inl (decimal_number nd s).
Proof.
  intros nd dg s Hne Hall Hlen.
  unfold extract_id.
  assert (Hd : py_isdigit nd dg s = true).
  { unfold py_isdigit. destruct s as [|c r]; [congruence|].
    apply forallb_forall. intros x Hx.
    rewrite Forall_forall in Hall. rewrite (Hall x Hx). reflexivity. }
  rewrite Hd.
  rewrite py_int_decimal by assumption. reflexivity.
Qed.

Lemma extract_id_numeric_witness :
  u "0042" <> [] /\ Forall (fun c => is_decimal latin1_decimal c = true) (u "0042") /\
  (List.length (u "0042") <= int_max_str_digits)%nat /\
  extract_id latin1_decimal latin1_digit_only (u "0042")
  = inl (decimal_number latin1_decimal (u "0042")) /\
  decimal_number latin1_decimal (u "0042") = 42.
Proof.
  assert (Hall : Forall (fun c => is_decimal latin1_decimal c = true) (u "0042"))
    by (vm_compute; repeat constructor).
  assert (Hlen : (List.length (u "0042") <= int_max_str_digits)%nat) by (vm_compute; lia).
  split; [discriminate|]. split; [exact Hall|]. split; [exact Hlen|].
  split; [|vm_compute; reflexivity].
  apply extract_id_numeric; [discriminate | exact Hall | exact Hlen].
Defined.

(** [C8] counterexample: a string of 4301 digits [1] is not parsed:
    [int()] raises the limit error instead of returning its value. *)
Lemma extract_id_numeric_over_limit :
  Forall (fun c => is_decimal latin1_decimal c = true) (repeat 49 4301) /\
  extract_id latin1_decimal latin1_digit_only (repeat 49 4301) = inr (IntLimit 4301).
Proof.
  split; [|vm_compute; reflexivity].
  apply Forall_forall. intros c Hc. apply repeat_spec in Hc. subst c. reflexivity.
Qed.

(* ================================================================== *)
(** * Properties of [_validate_output] *)

Lemma walk_app : forall ns a b cur,
  walk ns cur (a ++ b) =
  match walk ns cur a with
  | LDir c => walk ns c b
  | LFile c => match b with [] => LFile c | _ => LNotDir end
  | LMissing => LMissing
  | LNotDir => LNotDir
  end.
Proof.
  intros ns a b. induction a as [|w a IH]; intros cur; [reflexivity|].
  cbn [app walk].
  destruct (ustr_eqb w dotdot); [apply IH|].
  destruct (ns (cur ++ [w])) as [[|]|]; [apply IH | | reflexivity].
  destruct a as [|w' a]; simpl; [reflexivity|].
  destruct b; reflexivity.
Qed.

Lemma walk_set_preserve : forall ns k n parts cur,
  ns k = None -> walk ns cur parts <> LMissing ->
  walk (set_node ns k n) cur parts = walk ns cur parts.
Proof.
  intros ns k n parts. induction parts as [|w rest IH]; intros cur Hk Hw; [reflexivity|].
  cbn [walk] in *.
  destruct (ustr_eqb w dotdot); [apply IH; assumption|].
  unfold set_node at 1.
  destruct (list_eq_dec (list_eq_dec Z.eq_dec) (cur ++ [w]) k) as [E|E].
  - subst k. rewrite Hk in Hw. contradiction.
  - destruct (ns (cur ++ [w])) as [[|]|]; [apply IH; assumption | reflexivity | reflexivity].
Qed.

Lemma parts_of_rev : forall (l : list ustr) last rinit,
  rev l = last :: rinit -> l = rev rinit ++ [last].
Proof.
  intros l last rinit H.
  rewrite <- (rev_involutive l), H. reflexivity.
Qed.

Lemma os_mkdir_is_dir : forall st p st',
  os_mkdir st p = inl st' -> is_dir st' p = true.
Proof.
  intros st p st' H. unfold os_mkdir in H.
  destruct (rev (p_parts p)) as [|last rinit] eqn:Hr; [discriminate|].
  destruct (walk (fs_nodes st) [] (rev rinit)) as [c| | |] eqn:Hw; try discriminate.
  destruct (ustr_eqb last dotdot) eqn:Hdd; [discriminate|].
  destruct (fs_nodes st (c ++ [last])) eqn:Hn; [discriminate|].
  inversion H; subst st'. clear H.
  unfold is_dir. cbn [fs_nodes].
  rewrite (parts_of_rev _ _ _ Hr), walk_app.
  rewrite walk_set_preserve by (try assumption; rewrite Hw; discriminate).
  rewrite Hw. cbn [walk]. rewrite Hdd.
  unfold set_node.
  destruct (list_eq_dec (list_eq_dec Z.eq_dec) (c ++ [last]) (c ++ [last])); [reflexivity|].
  contradiction.
Qed.

Lemma mkdir_once_is_dir : forall st p e st',
  mkdir_once st p e = (st', None) -> is_dir st' p = true.
Proof.
  intros st p e st' H. unfold mkdir_once in H.
  destruct (os_mkdir st p) as [st1|err] eqn:Hm.
  - inversion H; subst. eapply os_mkdir_is_dir; eassumption.
  - destruct (e && is_dir st p) eqn:Hd; inversion H; subst.
    apply andb_true_iff in Hd. apply Hd.
Qed.

Lemma mkdir_parents_is_dir : forall fuel st p e st',
  mkdir_parents fuel st p e = (st', None) -> is_dir st' p = true.
Proof.
  induction fuel as [|f IH]; intros st p e st' H; cbn [mkdir_parents] in H;
  destruct (os_mkdir st p) as [st1|err] eqn:Hm;
  try (inversion H; subst; eapply os_mkdir_is_dir; eassumption);
  destruct err;
  try (destruct (e && is_dir st p) eqn:Hd; inversion H; subst;
       apply andb_true_iff in Hd; apply Hd);
  try discriminate.
  destruct (list_eq_dec _ _ _); [discriminate|].
  destruct (mkdir_parents f st (parent p) true) as [st1 [err|]] eqn:Hp; [discriminate|].
  eapply mkdir_once_is_dir; eassumption.
Qed.

Lemma mkdir_p_is_dir : forall st p st',
  mkdir_p st p = (st', None) -> is_dir st' p = true.
Proof. intros. eapply mkdir_parents_is_dir; eassumption. Qed.

Lemma is_dir_exists : forall st p, is_dir st p = true -> path_exists st p = true.
Proof.
  unfold is_dir, path_exists. intros st p H.
  destruct (walk _ _ _); congruence.
Qed.

Lemma digits_fuel_digits : forall fuel n acc,
  0 <= n -> Forall (fun c => 48 <= c <= 57) acc ->
  Forall (fun c => 48 <= c <= 57) (digits_fuel fuel n acc).
Proof.
  induction fuel as [|f IH]; intros n acc Hn Hacc; simpl; [assumption|].
  assert (Hd : 48 <= 48 + n mod 10 <= 57)
    by (pose proof (Z.mod_pos_bound n 10 ltac:(lia)); lia).
  destruct (n <? 10); [constructor; assumption|].
  apply IH; [apply Z.div_pos; lia | constructor; assumption].
Qed.

Lemma py_str_int_no_slash : forall n, Forall (fun c => c <> 47) (py_str_int n).
Proof.
  intro n.
  assert (H : forall m, 0 <= m -> Forall (fun c => c <> 47) (str_of_nonneg m)).
  { intros m Hm. unfold str_of_nonneg.
    pose proof (digits_fuel_digits (S (Z.to_nat (Z.log2 m))) m [] Hm
                  (Forall_nil _)) as Hd.
    eapply Forall_impl; [|exact Hd]. intros c Hc. cbv beta in Hc. lia. }
  unfold py_str_int. destruct (n <? 0) eqn:Hn.
  - constructor; [lia|]. apply H. apply Z.ltb_lt in Hn. lia.
  - apply H. apply Z.ltb_ge in Hn. lia.
Qed.

Lemma split_on_no_sep : forall sep s,
  Forall (fun c => c <> sep) s -> split_on sep s = [s].
Proof.
  intros sep s H. induction H as [|c r Hc _ IH]; [reflexivity|].
  simpl. rewrite IH.
  replace (c =? sep) with false by (symmetry; apply Z.eqb_neq; exact Hc).
  reflexivity.
Qed.

Lemma parse_reviews_file_name : forall id,
  parse_path (reviews_file_name id) =
  {| p_abs := false; p_parts := [reviews_file_name id] |}.
Proof.
  intro id. unfold parse_path.
  rewrite split_on_no_sep.
  - reflexivity.
  - unfold reviews_file_name.
    apply Forall_app. split; [repeat constructor; discriminate|].
    apply Forall_app. split; [apply py_str_int_no_slash|].
    repeat constructor; discriminate.
Qed.

(** [C6] (as the code does it) On return, [_validate_output] gives:
    with no argument (or an empty one) [reviews_<id>.md] in the working
    directory, made absolute; with an argument, the path expanded and
    made absolute, joined with [reviews_<id>.md] when it names an
    existing directory.  Something exists at the parent of the result:
    when nothing was there, the parent has been created as a directory;
    when something was there, even a regular file, nothing changed. *)
Theorem validate_output_resolves : forall et st arg id st' p,
  validate_output et st arg id = (st', inl p) ->
  ( ((arg = None \/ arg = Some []) /\
     exists cwd, getcwd st = Some cwd /\
       p = {| p_abs := true; p_parts := cwd ++ [reviews_file_name id] |})
    \/
    (exists s q, arg = Some s /\ s <> [] /\ expand_absolute et st s = inl q /\
       ((is_dir st q = true /\ p = path_join q (reviews_file_name id)) \/
        (is_dir st q = false /\ p = q))) ) /\
  path_exists st' (parent p) = true /\
  (path_exists st (parent p) = false -> is_dir st' (parent p) = true) /\
  (path_exists st (parent p) = true -> st' = st).
Proof.
  intros et st arg id st' p H.
  assert (Habsent : forall a : option ustr, (a = None \/ a = Some []) ->
            (st, absolute st (parse_path (reviews_file_name id))) = (st', inl p) ->
            ( ((a = None \/ a = Some []) /\
               exists cwd, getcwd st = Some cwd /\
                 p = {| p_abs := true; p_parts := cwd ++ [reviews_file_name id] |}) ) /\
            path_exists st' (parent p) = true /\ st' = st).
  { intros a Ha E.
    rewrite parse_reviews_file_name in E. unfold absolute in E. cbn [p_abs] in E.
    destruct (getcwd st) as [cwd|] eqn:Hc; [|discriminate].
    inversion E; subst st' p. clear E.
    split; [split; [exact Ha | exists cwd; split; reflexivity]|].
    split; [|reflexivity].
    unfold path_exists, parent. cbn [p_parts].
    rewrite removelast_last.
    unfold getcwd in Hc. destruct (walk _ _ (fs_cwd st)) eqn:Hw; try discriminate.
    inversion Hc; subst cwd. rewrite Hw. reflexivity. }
  destruct arg as [[|c s]|].
  - destruct (Habsent (Some []) (or_intror eq_refl) H) as [Hp [He ->]].
    split; [left; exact Hp|]. split; [exact He|].
    split; [congruence | reflexivity].
  - unfold validate_output in H.
    destruct (expand_absolute et st (c :: s)) as [q|e] eqn:Hq; [|discriminate].
    set (path' := if is_dir st q then path_join q (reviews_file_name id) else q) in H.
    assert (Hshape : (is_dir st q = true /\ path' = path_join q (reviews_file_name id)) \/
                     (is_dir st q = false /\ path' = q)).
    { unfold path'. destruct (is_dir st q); [left | right]; split; reflexivity. }
    destruct (path_exists st (parent path')) eqn:He; cbn [negb] in H.
    + inversion H; subst st' p.
      split; [right; exists (c :: s), q;
             split; [reflexivity|]; split; [discriminate|];
             split; [exact Hq | exact Hshape]|].
      split; [exact He|]. split; [intro Hf; congruence | reflexivity].
    + destruct (mkdir_p st (parent path')) as [st1 [err|]] eqn:Hm; inversion H; subst st' p.
      pose proof (mkdir_p_is_dir _ _ _ Hm) as Hd.
      split; [right; exists (c :: s), q;
             split; [reflexivity|]; split; [discriminate|];
             split; [exact Hq | exact Hshape]|].
      split; [apply is_dir_exists; exact Hd|].
      split; [intros _; exact Hd | intro Ht; congruence].
  - destruct (Habsent None (or_introl eq_refl) H) as [Hp [He ->]].
    split; [left; exact Hp|]. split; [exact He|].
    split; [congruence | reflexivity].
Qed.

Lemma validate_output_resolves_witness :
  let run := validate_output no_tilde fs_notes (Some (u "reports/out.md")) 42 in
  run = (fst run, inl {| p_abs := true;
                         p_parts := [u "data"; u "reports"; u "out.md"] |}) /\
  path_exists (fst run) (parent {| p_abs := true;
                         p_parts := [u "data"; u "reports"; u "out.md"] |}) = true.
Proof.
  intro run.
  assert (H : run = (fst run, inl {| p_abs := true;
                         p_parts := [u "data"; u "reports"; u "out.md"] |}))
    by (vm_compute; reflexivity).
  split; [exact H|].
  exact (proj1 (proj2 (validate_output_resolves no_tilde fs_notes
           (Some (u "reports/out.md")) 42 (fst run) _ H))).
Defined.

(** [C6] counterexample: when the parent of the requested path exists
    as a regular file, [_validate_output] returns normally and leaves
    it so: the parent of the result is not a directory. *)
Lemma validate_output_parent_is_file :
  validate_output no_tilde fs_notes (Some (u "/data/notes.txt/out.md")) 42
  = (fs_notes, inl {| p_abs := true;
                      p_parts := [u "data"; u "notes.txt"; u "out.md"] |}) /\
  is_dir fs_notes (parent {| p_abs := true;
                             p_parts := [u "data"; u "notes.txt"; u "out.md"] |})
  = false.
Proof. split; vm_compute; reflexivity. Qed.

(* ================================================================== *)
(** * [main] and the interrupted fetch *)

Lemma quiet_trans : forall s1 s2 s3, quiet s1 s2 -> quiet s2 s3 -> quiet s1 s3.
Proof.
  intros s1 s2 s3 [F1 [e1 [T1 N1]]] [F2 [e2 [T2 N2]]].
  split; [congruence|]. exists (e1 ++ e2). split.
  - rewrite T2, T1, app_assoc. reflexivity.
  - intros p t Hin. apply in_app_or in Hin as [H|H]; [exact (N1 p t H) | exact (N2 p t H)].
Qed.

Ltac quiet_tac :=
  unfold quiet; cbn [m_fs m_trace]; split; [reflexivity|];
  eexists; split;
  [ first [ rewrite <- ?app_assoc; reflexivity | symmetry; apply app_nil_r ]
  | let p := fresh "p" in let t := fresh "t" in let Hin := fresh "Hin" in
    intros p t Hin; cbn [app In] in Hin;
    repeat destruct Hin as [Hin|Hin]; try discriminate; try contradiction ].

Lemma stop_animations_quiet : forall tq s,
  exists s', stop_animations tq s = (s', inl tt) /\ quiet s s'.
Proof.
  intros tq s. unfold stop_animations, bind, get, ret, emit.
  destruct (m_startup_stopped s); cbn [m_pbar m_spinner_thread];
  destruct (m_pbar s) as [t|];
  repeat match goal with |- context [if ?b then _ else _] => destruct b end;
  eexists; (split; [reflexivity | quiet_tac]).
Qed.

Lemma on_progress_quiet : forall cur tot s,
  (m_startup_stopped s = true -> m_pbar s <> None) ->
  exists s', on_progress cur tot s = (s', inl tt) /\
    m_startup_stopped s' = true /\ m_pbar s' <> None /\ quiet s s'.
Proof.
  intros cur tot s Hinv.
  unfold on_progress, bind, get, ret, emit, set_startup_stopped, set_pbar.
  destruct (m_startup_stopped s) eqn:Hs; cbn [m_pbar m_startup_stopped m_trace m_fs].
  - destruct (m_pbar s) as [t|] eqn:Hp; [|exfalso; exact (Hinv eq_refl eq_refl)].
    destruct (t =? tot); eexists;
      (split; [reflexivity|]); (split; [assumption|]); (split; [cbn; rewrite ?Hp; discriminate|quiet_tac]).
  - destruct (tot =? tot); eexists;
      (split; [reflexivity|]); (split; [reflexivity|]); (split; [cbn; discriminate|quiet_tac]).
Qed.

Lemma on_progress_fallback_quiet : forall cur tot s,
  exists s', on_progress_fallback cur tot s = (s', inl tt) /\ quiet s s'.
Proof.
  intros cur tot s.
  unfold on_progress_fallback, bind, get, ret, emit, set_startup_stopped,
         set_spinner_thread.
  destruct (m_startup_stopped s); eexists; (split; [reflexivity | quiet_tac]).
Qed.

Lemma run_callbacks_quiet : forall tq evs s,
  pbar_inv tq s ->
  exists s', run_callbacks tq evs s = (s', inl tt) /\ pbar_inv tq s' /\ quiet s s'.
Proof.
  intros tq evs. induction evs as [|[cur tot] rest IH]; intros s Hinv.
  - exists s. split; [reflexivity|]. split; [exact Hinv | quiet_tac].
  - cbn [run_callbacks]. unfold bind at 1.
    assert (Hstep : exists s1, progress_callback tq cur tot s = (s1, inl tt) /\
                               pbar_inv tq s1 /\ quiet s s1).
    { unfold progress_callback. destruct tq.
      - destruct (on_progress_quiet cur tot s (Hinv eq_refl)) as [s1 [E [Hst [Hp Hq]]]].
        exists s1. split; [exact E|]. split; [intros _ _; exact Hp | exact Hq].
      - destruct (on_progress_fallback_quiet cur tot s) as [s1 [E Hq]].
        exists s1. split; [exact E|]. split; [intro; discriminate | exact Hq]. }
    destruct Hstep as [s1 [E [Hinv1 Hq1]]]. rewrite E.
    destruct (IH s1 Hinv1) as [s2 [E2 [Hinv2 Hq2]]].
    exists s2. split; [exact E2|]. split; [exact Hinv2 | eapply quiet_trans; eassumption].
Qed.

(** The [try] block of [main] when Ctrl+C interrupts [yp.parse()]. *)
Lemma fetch_interrupted_block : forall tq f s0,
  pbar_inv tq s0 -> f_end f = FetchInterrupted ->
  exists s3,
    try_except_finally (yp_parse tq f)
      (stop_animations tq ;;; raise (SystemExit cancel_message))
      (stop_animations tq) s0 = (s3, inr (SystemExit cancel_message)) /\
    quiet s0 s3.
Proof.
  intros tq f s0 Hinv Hf.
  destruct (run_callbacks_quiet tq (f_progress f) s0 Hinv) as [s1 [E1 [_ Hq1]]].
  unfold try_except_finally, yp_parse, bind at 1.
  rewrite E1, Hf. cbn [raise].
  unfold bind at 1.
  destruct (stop_animations_quiet tq s1) as [s2 [E2 Hq2]]. rewrite E2. cbn [raise].
  destruct (stop_animations_quiet tq s2) as [s3 [E3 Hq3]]. rewrite E3.
  exists s3. split; [reflexivity|].
  eapply quiet_trans; [eassumption | eapply quiet_trans; eassumption].
Qed.

Lemma cancel_message_distinct : forall m, cancel_message <> err_prefix ++ m.
Proof.
  intros m H. unfold cancel_message, err_prefix in H. cbn [app] in H. discriminate H.
Qed.

(** Claim C7: when Ctrl+C interrupts the blocking [yp.parse()] call,
    [main] ends with [SystemExit] carrying the cancellation message,
    which is not of the form of the error messages ["Ошибка: ..."];
    the file system is the one [main] started with and no file was
    written on the way. *)
Theorem main_interrupt_no_output :
  forall uo et nd dg tq args line f st company_id,
  f_end f = FetchInterrupted ->
  extract_id nd dg (input_value args line) = inl company_id ->
  exists s',
    main uo et nd dg tq args line f (initial_state st)
      = (s', inr (SystemExit cancel_message)) /\
    m_fs s' = st /\ no_write (m_trace s') /\
    (forall m, cancel_message <> err_prefix ++ m).
Proof.
  intros uo et nd dg tq args line f st company_id Hf Hid.
  unfold main. rewrite Hid. unfold bind at 1.
  set (s0 := fst (emit StartupSpinnerStart (initial_state st))).
  change (emit StartupSpinnerStart (initial_state st)) with (s0, @inl unit exc tt).
  assert (Hinv : pbar_inv tq s0) by (intros _ H; discriminate H).
  assert (Hq0 : quiet (initial_state st) s0) by (subst s0; quiet_tac).
  destruct (fetch_interrupted_block tq f s0 Hinv Hf) as [s3 [E Hq]].
  unfold bind at 1. rewrite E.
  destruct (quiet_trans _ _ _ Hq0 Hq) as [Hfs [extra [Ht Hnw]]].
  exists s3. split; [reflexivity|]. split; [exact Hfs|]. split.
  - rewrite Ht. exact Hnw.
  - exact cancel_message_distinct.
Qed.

Lemma main_interrupt_no_output_witness :
  f_end fetch_interrupted_demo = FetchInterrupted /\
  extract_id latin1_decimal latin1_digit_only (input_value args_demo []) = inl 1234567 /\
  exists s',
    main utc no_tilde latin1_decimal latin1_digit_only true args_demo [] fetch_interrupted_demo
      (initial_state fs_notes) = (s', inr (SystemExit cancel_message)) /\
    m_fs s' = fs_notes /\ no_write (m_trace s') /\
    (forall m, cancel_message <> err_prefix ++ m).
Proof.
  assert (H1 : f_end fetch_interrupted_demo = FetchInterrupted) by reflexivity.
  assert (H2 : extract_id latin1_decimal latin1_digit_only (input_value args_demo [])
               = inl 1234567) by (vm_compute; reflexivity).
  split; [exact H1|]. split; [exact H2|].
  exact (main_interrupt_no_output utc no_tilde latin1_decimal latin1_digit_only true
           args_demo [] fetch_interrupted_demo fs_notes 1234567 H1 H2).
Defined.

(* ================================================================== *)
(** * Further properties of the code *)

(** ** [_patched_get_data_reviews] *)

Lemma collect_reviews_ok : forall elem item err (get : elem -> item + err) cb els items idx total,
  Forall2 (fun e it => get e = inl it) els items ->
  collect_reviews elem item err get cb idx total els =
    (if cb then map (fun k => (idx + Z.of_nat k, total)) (seq 0 (List.length els)) else [],
     inl items).
Proof.
  intros elem item err get cb els items idx total H. revert idx.
  induction H as [|e it els items He Hrest IH]; intros idx.
  - destruct cb; reflexivity.
  - cbn [collect_reviews]. rewrite He, IH. cbn [List.length seq map].
    destruct cb; [|reflexivity].
    rewrite <- seq_shift, map_map. cbn [app]. f_equal. f_equal.
    + f_equal. lia.
    + apply map_ext. intro k. f_equal. lia.
Qed.

Lemma collect_reviews_fail : forall elem item err (get : elem -> item + err) cb pre e post x idx total,
  Forall (fun e' => exists it, get e' = inl it) pre -> get e = inr x ->
  collect_reviews elem item err get cb idx total (pre ++ e :: post) =
    (if cb then map (fun k => (idx + Z.of_nat k, total)) (seq 0 (List.length pre)) else [],
     inr x).
Proof.
  intros elem item err get cb pre e post x idx total H Hx. revert idx.
  induction H as [|e' pre [it He'] Hrest IH]; intros idx.
  - cbn. rewrite Hx. destruct cb; reflexivity.
  - cbn [app collect_reviews]. rewrite He', IH. cbn [List.length seq map].
    destruct cb; [|reflexivity].
    rewrite <- seq_shift, map_map. cbn [app]. f_equal. f_equal.
    + f_equal. lia.
    + apply map_ext. intro k. f_equal. lia.
Qed.

(** [X1] The patched [__get_data_reviews] works on the list it settles
    on (the rescan after scrolling when the first scan found more than
    one element).  When [_patched_get_data_item] succeeds on each of its
    [n] elements it returns their items, one per element, in order, and
    with a progress callback installed it calls it with
    [(1, n), ..., (n, n)]; never without one.  When it raises on an
    element, the scan ends with that exception after the calls for the
    elements before it only. *)
Theorem get_data_reviews_progress : forall elem item err (get : elem -> item + err) cb first rescan,
  let elements := if Nat.ltb 1 (List.length first) then rescan else first in
  (forall items, Forall2 (fun e it => get e = inl it) elements items ->
     get_data_reviews elem item err get cb first rescan =
       (if cb then progress_calls (List.length elements) else [], inl items)) /\
  (forall pre e post x, elements = pre ++ e :: post ->
     Forall (fun e' => exists it, get e' = inl it) pre -> get e = inr x ->
     get_data_reviews elem item err get cb first rescan =
       (if cb then firstn (List.length pre) (progress_calls (List.length elements)) else [],
        inr x)).
Proof.
  intros elem item err get cb first rescan elements.
  unfold get_data_reviews. fold elements. split.
  - intros items H. rewrite (collect_reviews_ok _ _ _ get cb _ _ _ _ H).
    destruct cb; [|reflexivity].
    f_equal. unfold progress_calls. rewrite <- seq_shift, map_map.
    apply map_ext. intro k. f_equal. lia.
  - intros pre e post x He Hpre Hx. rewrite He at 2.
    rewrite (collect_reviews_fail _ _ _ get cb pre e post x _ _ Hpre Hx).
    destruct cb; [|reflexivity].
    f_equal. unfold progress_calls. rewrite He, length_app. cbn [List.length].
    replace (List.length pre + S (List.length post))%nat
      with (List.length pre + S (List.length post))%nat by reflexivity.
    rewrite seq_app, map_app, firstn_app, length_map, length_seq, Nat.sub_diag.
    rewrite firstn_all2 by (rewrite length_map, length_seq; lia).
    cbn [firstn]. rewrite app_nil_r.
    rewrite <- seq_shift, map_map. apply map_ext. intro k. f_equal; lia.
Qed.

Lemma get_data_reviews_progress_witness :
  get_data_reviews Z Z unit (fun e => if e =? 0 then inr tt else inl e) true [5; 0] [5; 0; 7]
  = (firstn 1 (progress_calls 3), inr tt).
Proof.
  exact (proj2 (get_data_reviews_progress Z Z unit (fun e => if e =? 0 then inr tt else inl e)
                  true [5; 0] [5; 0; 7]) [5] 0 [7] tt eq_refl
               ltac:(repeat constructor; eexists; reflexivity) eq_refl).
Defined.

(** ** The avatar style in [_patched_get_data_item] *)

Lemma split_on_length : forall sep s,
  List.length (split_on sep s) = S (count_occ Z.eq_dec s sep).
Proof.
  intros sep s. induction s as [|c r IH]; [reflexivity|].
  cbn [split_on count_occ]. destruct (c =? sep) eqn:E.
  - apply Z.eqb_eq in E. subst c. destruct (Z.eq_dec sep sep); [|congruence].
    cbn [List.length]. rewrite IH. reflexivity.
  - apply Z.eqb_neq in E. destruct (Z.eq_dec c sep); [congruence|].
    destruct (split_on sep r) as [|w ws]; cbn [List.length] in *; lia.
Qed.

Lemma split_on_sep_app : forall sep a t,
  ~ In sep a -> split_on sep (a ++ sep :: t) = a :: split_on sep t.
Proof.
  intros sep a t. induction a as [|c r IH]; intro H.
  - cbn. rewrite Z.eqb_refl. reflexivity.
  - cbn [app split_on]. rewrite IH by (intro Hin; apply H; right; exact Hin).
    replace (c =? sep) with false; [reflexivity|].
    symmetry. apply Z.eqb_neq. intro E. apply H. left. exact E.
Qed.

(** [X2] Splitting the avatar style on the double quote and taking
    item 1 raises [IndexError] exactly when the style holds no double
    quote. *)
Theorem icon_href_of_style_fails : forall style,
  icon_href_of_style style = None <-> ~ In 34 style.
Proof.
  intro style. unfold icon_href_of_style. rewrite nth_error_None, split_on_length.
  rewrite (count_occ_not_In Z.eq_dec). pose proof (count_occ_In Z.eq_dec style 34).
  split; intro H'.
  - destruct (count_occ Z.eq_dec style 34) eqn:E; [reflexivity|lia].
  - rewrite H'. lia.
Qed.

(** [X3] Otherwise the avatar URL is the text between the first and the
    second double quote (or the end of the style). *)
Theorem icon_href_of_style_between_quotes : forall a b rest,
  ~ In 34 a -> ~ In 34 b -> (rest = [] \/ exists r, rest = 34 :: r) ->
  icon_href_of_style (a ++ 34 :: b ++ rest) = Some b.
Proof.
  intros a b rest Ha Hb Hr. unfold icon_href_of_style.
  rewrite split_on_sep_app by exact Ha. cbn [nth_error].
  destruct Hr as [-> | [r ->]].
  - rewrite app_nil_r, split_on_no_sep; [reflexivity|].
    apply Forall_forall. intros c Hc E. subst c. exact (Hb Hc).
  - rewrite split_on_sep_app by exact Hb. reflexivity.
Qed.

Lemma icon_href_of_style_between_quotes_witness :
  icon_href_of_style (u "background-image: url(" ++ 34 :: u "https://a/b.png" ++ 34 :: u ");")
    = Some (u "https://a/b.png").
Proof.
  apply icon_href_of_style_between_quotes.
  - apply (count_occ_not_In Z.eq_dec). reflexivity.
  - apply (count_occ_not_In Z.eq_dec). reflexivity.
  - right. eexists. reflexivity.
Defined.

(** ** [show_spinner] *)


Lemma put_at_inside : forall line i c,
  (i <= List.length line)%nat ->
  put_at line i c = firstn i line ++ [c] ++ skipn (S i) line.
Proof.
  induction line as [|x r IH]; intros i c H.
  - destruct i; [reflexivity | cbn in H; lia].
  - destruct i; [reflexivity|].
    cbn [put_at firstn skipn app]. rewrite IH by (cbn in H; lia). reflexivity.
Qed.

Lemma console_write_app : forall t a b,
  console_write t (a ++ b) =
  match console_write t a with Some t' => console_write t' b | None => None end.
Proof.
  intros t a. revert t. induction a as [|c a IH]; intros t b; [reflexivity|].
  cbn [app console_write]. destruct (console_put t c); [apply IH | reflexivity].
Qed.

Lemma single_column_not_cr : forall c, single_column c = true -> c <> 13.
Proof. intros c H E. subst c. discriminate H. Qed.

Lemma console_write_plain : forall w line i,
  Forall (fun c => single_column c = true) w -> (i <= List.length line)%nat ->
  console_write {| con_line := line; con_col := i |} w =
  Some {| con_line := firstn i line ++ w ++ skipn (i + List.length w) line;
          con_col := (i + List.length w)%nat |}.
Proof.
  induction w as [|c w IH]; intros line i Hw Hi.
  - cbn. rewrite Nat.add_0_r, firstn_skipn. reflexivity.
  - inversion Hw as [|? ? Hc Hw']; subst.
    cbn [console_write]. unfold console_put. cbn [con_line con_col].
    replace (c =? 13) with false
      by (symmetry; apply Z.eqb_neq; exact (single_column_not_cr c Hc)).
    rewrite Hc.
    rewrite put_at_inside by exact Hi.
    assert (Hf : List.length (firstn i line) = i) by (rewrite length_firstn; lia).
    rewrite IH.
    + cbn [List.length]. f_equal. f_equal; [|lia].
      set (A := firstn i line) in *. set (B := skipn (S i) line).
      replace (S i) with (List.length A + 1)%nat by lia.
      rewrite firstn_app_2. cbn [firstn]. rewrite <- app_assoc. cbn [app]. f_equal.
      f_equal. f_equal.
      rewrite skipn_app, skipn_all2 by lia. cbn [app].
      replace (List.length A + 1 + List.length w - List.length A)%nat
        with (S (List.length w)) by lia.
      cbn [skipn]. subst B. rewrite skipn_skipn. f_equal. lia.
    + exact Hw'.
    + rewrite !length_app, Hf. cbn [List.length]. lia.
Qed.

Lemma console_write_cr : forall t w,
  console_write t (13 :: w) = console_write {| con_line := con_line t; con_col := O |} w.
Proof. reflexivity. Qed.

(** One frame, or the blank line, drawn over a line no longer than it. *)
Lemma console_write_line : forall t w,
  Forall (fun c => single_column c = true) w ->
  (List.length (con_line t) <= List.length w)%nat ->
  console_write t (13 :: w) = Some {| con_line := w; con_col := List.length w |}.
Proof.
  intros t w Hw Hl. rewrite console_write_cr, console_write_plain by (auto; lia).
  cbn [firstn app Nat.add]. rewrite skipn_all2 by exact Hl. rewrite app_nil_r. reflexivity.
Qed.

Lemma spinner_frame_single_column : forall k,
  single_column (nth (k mod 4) spinner_frames 0) = true.
Proof.
  intro k. assert (Hk := Nat.mod_upper_bound k 4 ltac:(lia)).
  destruct (k mod 4)%nat as [|[|[|[|j]]]]; cbn; try reflexivity; lia.
Qed.

Lemma spinner_loop_width : forall prefix polls k t,
  Forall (fun c => single_column c = true) prefix ->
  (List.length (con_line t) <= List.length prefix + 2)%nat ->
  exists t', console_write t (spinner_loop prefix k polls) = Some t' /\
    (List.length (con_line t') <= List.length prefix + 2)%nat.
Proof.
  intros prefix polls. induction polls as [|p IH]; intros k t Hp Ht.
  - exists t. split; [reflexivity | exact Ht].
  - cbn [spinner_loop].
    replace ([13] ++ prefix ++ [32; nth (k mod 4) spinner_frames 0] ++ spinner_loop prefix (S k) p)
      with ((13 :: (prefix ++ [32; nth (k mod 4) spinner_frames 0])) ++ spinner_loop prefix (S k) p)
      by (cbn; rewrite <- app_assoc; reflexivity).
    rewrite console_write_app, console_write_line.
    + apply IH; [exact Hp|]. cbn [con_line]. rewrite length_app. cbn. lia.
    + apply Forall_app. split; [exact Hp|].
      repeat constructor. exact (spinner_frame_single_column k).
    + rewrite length_app. cbn [List.length]. lia.
Qed.

(** [X4] Whatever number of frames it draws, [show_spinner] leaves the
    console line blank, exactly as wide as [prefix] plus the two columns
    of the frame, with the cursor back at column 0: the erasing line
    covers every frame.  This holds when each character of the prefix
    takes one column of the terminal (printable ASCII or the Cyrillic
    letters, as in the script's prefixes) and the line was no wider than
    that to begin with. *)
Theorem show_spinner_leaves_blank_line : forall prefix polls t,
  Forall (fun c => single_column c = true) prefix ->
  (List.length (con_line t) <= List.length prefix + 2)%nat ->
  console_write t (show_spinner prefix polls) =
    Some {| con_line := repeat 32 (List.length prefix + 2); con_col := O |}.
Proof.
  intros prefix polls t Hp Ht. unfold show_spinner.
  rewrite console_write_app.
  destruct (spinner_loop_width prefix polls 0 t Hp Ht) as [t1 [E Hw]].
  rewrite E.
  replace ([13] ++ repeat 32 (List.length prefix + 2) ++ [13])
    with ((13 :: repeat 32 (List.length prefix + 2)) ++ [13]) by reflexivity.
  rewrite console_write_app, (console_write_line t1).
  - reflexivity.
  - apply Forall_forall. intros c Hc. apply repeat_spec in Hc. subst c. reflexivity.
  - rewrite repeat_length. exact Hw.
Qed.

Lemma show_spinner_leaves_blank_line_witness :
  Forall (fun c => single_column c = true) (u "Запуск браузера и загрузка страницы") /\
  console_write {| con_line := []; con_col := O |}
    (show_spinner (u "Запуск браузера и загрузка страницы") 5) =
  Some {| con_line := repeat 32 (List.length (u "Запуск браузера и загрузка страницы") + 2);
          con_col := O |}.
Proof.
  assert (Hp : Forall (fun c => single_column c = true) (u "Запуск браузера и загрузка страницы"))
    by (vm_compute; repeat constructor).
  split; [exact Hp|].
  apply show_spinner_leaves_blank_line; [exact Hp|].
  cbn [con_line List.length]. lia.
Defined.

(** ** [build_markdown]: side output and failure *)


Lemma render_loop_events : forall uo sb v tot items md ev md' ev',
  render_loop uo sb v tot items md ev = inl (md', ev') ->
  ev' = ev ++ flat_map (fun p => (if sb then [BarTick (fst p) tot] else [])
                                 ++ (if v && (fst p mod 25 =? 0)
                                     then [LogProgress (fst p) tot] else [])) items.
Proof.
  intros uo sb v tot items. induction items as [|[idx r] rest IH]; intros md ev md' ev' H.
  - cbn in H. injection H as _ <-. rewrite app_nil_r. reflexivity.
  - cbn [render_loop] in H. destruct (review_block uo idx r) as [b|e]; [|discriminate].
    apply IH in H. rewrite H. cbn [flat_map fst].
    destruct sb, (v && (idx mod 25 =? 0)); cbn [app]; rewrite <- ?app_assoc; reflexivity.
Qed.

Lemma map_fst_enumerate : forall {A} (l : list A) i,
  map fst (enumerate i l) = map (fun k => i + Z.of_nat k) (seq 0 (List.length l)).
Proof.
  intros A l. induction l as [|x r IH]; intro i; [reflexivity|].
  cbn [enumerate map fst List.length seq]. rewrite IH, <- seq_shift, map_map.
  f_equal; [lia|]. apply map_ext. intro k. lia.
Qed.

Lemma map_snd_enumerate : forall {A} (l : list A) i, map snd (enumerate i l) = l.
Proof.
  intros A l. induction l as [|x r IH]; intro i; [reflexivity|].
  cbn [enumerate map snd]. rewrite IH. reflexivity.
Qed.

Lemma flat_map_fst : forall {A B C} (g : A -> list C) (l : list (A * B)),
  flat_map (fun p => g (fst p)) l = flat_map g (map fst l).
Proof.
  intros A B C g l. induction l as [|p r IH]; [reflexivity|]. cbn. rewrite IH. reflexivity.
Qed.

Lemma flat_map_filter : forall {A C} (f : A -> bool) (h : A -> C) l,
  flat_map (fun i => if f i then [h i] else []) l = map h (filter f l).
Proof.
  intros A C f h l. induction l as [|x r IH]; [reflexivity|].
  cbn. rewrite IH. destruct (f x); reflexivity.
Qed.

(** [X5] Besides the text, [build_markdown] only reports progress: in
    verbose mode one log line [(i, n)] for each review index [i] that is
    a multiple of 25, and no bar; otherwise, with [tqdm], one bar step
    per review, in order; without [tqdm] and not verbose, nothing. *)
Theorem build_markdown_side_output : forall uo tq v d md ev,
  build_markdown_run uo tq v d = inl (md, ev) ->
  let n := List.length (company_reviews d) in
  let idxs := map Z.of_nat (seq 1 n) in
  ev = if v then map (fun i => LogProgress i (Z.of_nat n)) (filter (fun i => i mod 25 =? 0) idxs)
       else if tq then map (fun i => BarTick i (Z.of_nat n)) idxs
       else [].
Proof.
  intros uo tq v d md ev H n idxs. unfold build_markdown_run in H.
  destruct (render_loop uo (tq && negb v) v (Z.of_nat (List.length (company_reviews d)))
              (enumerate 1 (company_reviews d)) (md_header (company_info d)) [])
    as [[md0 ev0]|e0] eqn:E; [|discriminate].
  injection H as _ <-. apply render_loop_events in E. rewrite E. cbn [app].
  rewrite (flat_map_fst (fun i => (if tq && negb v then [BarTick i (Z.of_nat n)] else [])
                         ++ (if v && (i mod 25 =? 0) then [LogProgress i (Z.of_nat n)] else []))).
  assert (Hi : map fst (enumerate 1 (company_reviews d)) = idxs).
  { rewrite map_fst_enumerate. unfold idxs. rewrite <- seq_shift, map_map.
    apply map_ext. intro k. lia. }
  rewrite Hi. destruct v; cbn [andb negb].
  - rewrite andb_false_r. cbn [app].
    apply (flat_map_filter (fun i => i mod 25 =? 0) (fun i => LogProgress i (Z.of_nat n))).
  - rewrite andb_true_r. destruct tq.
    + clear Hi E. induction idxs as [|i r IH]; [reflexivity|].
      cbn [flat_map map]. rewrite <- IH. reflexivity.
    + clear Hi E. induction idxs as [|i r IH]; [reflexivity|]. exact IH.
Qed.

Lemma build_markdown_side_output_witness :
  build_markdown_run utc true false data_ab = inl (doc_ab, [BarTick 1 2; BarTick 2 2]) /\
  [BarTick 1 2; BarTick 2 2] = map (fun i => BarTick i 2) [1; 2].
Proof.
  assert (H : build_markdown_run utc true false data_ab
              = inl (doc_ab, [BarTick 1 2; BarTick 2 2])) by (vm_compute; reflexivity).
  split; [exact H|].
  exact (build_markdown_side_output utc true false data_ab _ _ H).
Defined.


Lemma render_loop_error : forall uo sb v tot e l i md ev,
  render_loop uo sb v tot (enumerate i l) md ev = inr e <->
  exists pre r post, l = pre ++ r :: post /\
    Forall (fun r' => exists s, fmt_date uo (r_date r') = inl s) pre /\
    fmt_date uo (r_date r) = inr e.
Proof.
  intros uo sb v tot e l. induction l as [|r rest IH]; intros i md ev.
  - cbn. split; [discriminate|].
    intros [pre [r [post [Hl _]]]]. destruct pre; discriminate.
  - cbn [enumerate render_loop]. unfold review_block at 1.
    destruct (fmt_date uo (r_date r)) as [ds|e'] eqn:E.
    + rewrite IH. split.
      * intros [pre [r0 [post [Hl [Hf Hd]]]]]. exists (r :: pre), r0, post.
        split; [rewrite Hl; reflexivity|]. split; [|exact Hd].
        constructor; [exists ds; exact E | exact Hf].
      * intros [[|r1 pre] [r0 [post [Hl [Hf Hd]]]]].
        -- injection Hl as -> ->. congruence.
        -- injection Hl as -> Hl. apply Forall_cons_iff in Hf as [_ Hf].
           exists pre, r0, post. split; [exact Hl|]. split; assumption.
    + split.
      * intro H. injection H as <-. exists [], r, rest.
        split; [reflexivity|]. split; [constructor | exact E].
      * intros [[|r1 pre] [r0 [post [Hl [Hf Hd]]]]].
        -- injection Hl as -> ->. congruence.
        -- injection Hl as -> Hl. apply Forall_cons_iff in Hf as [[s Hs] _]. congruence.
Qed.

(** [X6] [build_markdown] raises exactly when the date of one of the
    reviews cannot be converted by [datetime.fromtimestamp], and the
    exception it raises is that of the first such review in the list:
    all the reviews before it have a date that converts. *)
Theorem build_markdown_fails_iff_bad_date : forall uo tq v d e,
  build_markdown uo tq v d = inr e <->
  exists pre r post, company_reviews d = pre ++ r :: post /\
    Forall (fun r' => exists s, fmt_date uo (r_date r') = inl s) pre /\
    fmt_date uo (r_date r) = inr e.
Proof.
  intros uo tq v d e.
  rewrite <- (render_loop_error uo (tq && negb v) v (Z.of_nat (List.length (company_reviews d)))
                e (company_reviews d) 1 (md_header (company_info d)) []).
  unfold build_markdown, build_markdown_run.
  destruct (render_loop uo (tq && negb v) v (Z.of_nat (List.length (company_reviews d)))
              (enumerate 1 (company_reviews d)) (md_header (company_info d)) [])
    as [[md ev]|e'].
  - split; discriminate.
  - split; intro H; injection H as ->; reflexivity.
Qed.

(** ** Dates *)


Lemma all_from_spec : forall f n start k,
  all_from f start n = true -> start <= k < start + Z.of_nat n -> f k = true.
Proof.
  intros f n. induction n as [|n IH]; intros start k H Hk; [lia|].
  cbn [all_from] in H. apply andb_true_iff in H as [H1 H2].
  destruct (Z.eq_dec k start) as [->|Hne]; [exact H1|].
  apply (IH (start + 1)); [exact H2 | lia].
Qed.

(** The 146097 days of a 400-year cycle, as 189 blocks of 773 days. *)
Lemma civil_cycle_checked :
  all_from (fun q => all_from civil_day_ok (q * 773) 773) 0 189 = true.
Proof. vm_compute. reflexivity. Qed.

Lemma civil_day_ok_cycle : forall k, 0 <= k < 146097 -> civil_day_ok k = true.
Proof.
  intros k Hk.
  assert (Hq0 : 0 <= k / 773 < 0 + Z.of_nat 189).
  { change (Z.of_nat 189) with 189.
    split; [apply Z.div_pos; lia | apply Z.div_lt_upper_bound; lia]. }
  pose proof (all_from_spec _ 189 0 (k / 773) civil_cycle_checked Hq0) as Hq.
  cbv beta in Hq.
  apply (all_from_spec _ 773 _ k Hq).
  change (Z.of_nat 773) with 773.
  pose proof (Z.div_mod k 773 ltac:(lia)). pose proof (Z.mod_pos_bound k 773 ltac:(lia)).
  lia.
Qed.

Lemma civil_from_days_era : forall z,
  civil_from_days z =
    let '(y, m, d) := civil_from_days ((z + 719468) mod 146097 - 719468) in
    (y + (z + 719468) / 146097 * 400, m, d).
Proof.
  intro z. unfold civil_from_days.
  set (e := (z + 719468) / 146097).
  set (doe := (z + 719468) mod 146097).
  assert (Hb : 0 <= doe < 146097) by (apply Z.mod_pos_bound; lia).
  replace (z + 719468 - e * 146097) with doe
    by (subst doe e; rewrite Z.mod_eq by lia; lia).
  replace (doe - 719468 + 719468) with doe by ring.
  rewrite (Z.div_small doe 146097) by lia.
  replace (doe - 0 * 146097) with doe by ring.
  cbv beta zeta iota.
  repeat match goal with |- context [if ?b then _ else _] => destruct b end.
  all: f_equal; try reflexivity; f_equal; try reflexivity; ring.
Qed.

Lemma leap_year_period : forall y e, leap_year (y + e * 400) = leap_year y.
Proof.
  intros y e. unfold leap_year.
  replace (y + e * 400) with (y + (e * 100) * 4) by ring. rewrite Z_mod_plus_full.
  replace (y + e * 100 * 4) with (y + (e * 4) * 100) by ring. rewrite Z_mod_plus_full.
  replace (y + e * 4 * 100) with (y + e * 400) by ring. rewrite Z_mod_plus_full.
  reflexivity.
Qed.

Lemma valid_date_period : forall y m d e,
  valid_date (y + e * 400) m d = valid_date y m d.
Proof.
  intros. unfold valid_date, days_in_month. rewrite leap_year_period. reflexivity.
Qed.


(** Every day number converts to a valid date of the Gregorian calendar. *)
Lemma civil_from_days_valid : forall z,
  let '(y, m, d) := civil_from_days z in valid_date y m d = true.
Proof.
  intro z. rewrite civil_from_days_era.
  pose proof (civil_day_ok_cycle ((z + 719468) mod 146097)
                ltac:(apply Z.mod_pos_bound; lia)) as H.
  unfold civil_day_ok in H.
  destruct (civil_from_days ((z + 719468) mod 146097 - 719468)) as [[y m] d].
  rewrite valid_date_period. exact H.
Qed.

Lemma pad2_checked : all_from (fun n => Nat.eqb (List.length (pad2 n)) 2) 1 31 = true.
Proof. vm_compute. reflexivity. Qed.

Lemma year_checked :
  all_from (fun y => Nat.eqb (List.length (py_str_int y)) 4) 1000 9000 = true.
Proof. vm_compute. reflexivity. Qed.

(** [X7] Every date [build_markdown] prints is the local calendar day
    of the timestamp, a valid date of the Gregorian calendar (month 1 to
    12, day within the month, leap years included), with day and month
    on two digits; from year 1000 on it is exactly ten characters,
    [DD.MM.YYYY]. *)
Theorem fmt_date_valid : forall uo ts s,
  fmt_date uo ts = inl s ->
  exists y m d,
    civil_from_days ((ts + uo ts) / 86400) = (y, m, d) /\
    s = pad2 d ++ [46] ++ pad2 m ++ [46] ++ py_str_int y /\
    1 <= y <= 9999 /\ valid_date y m d = true /\
    (1000 <= y -> List.length s = 10%nat).
Proof.
  intros uo ts s H. unfold fmt_date in H.
  destruct (fromtimestamp_date uo ts) as [[[y m] d]|e] eqn:F; [|discriminate].
  injection H as <-.
  unfold fromtimestamp_date in F.
  destruct (negb _); [discriminate|].
  destruct (localtime uo ts) as [[[y0 m0] d0]|] eqn:L; [|discriminate].
  destruct (year_ok y0) eqn:Y; cbn [negb] in F; [|discriminate].
  assert (Heq : (y0, m0, d0) = (y, m, d)).
  { repeat (match type of F with
            | context [match ?x with Some _ => _ | None => _ end] => destruct x as [[[? ?] ?]|]
            | context [if ?b then _ else _] => destruct b
            end; cbv beta iota in F); congruence. }
  injection Heq as -> -> ->.
  unfold localtime in L.
  pose proof (civil_from_days_valid ((ts + uo ts) / 86400)) as Hv.
  destruct (civil_from_days ((ts + uo ts) / 86400)) as [[y0 m0] d0] eqn:E.
  destruct (_ && _); [|discriminate]. injection L as -> -> ->.
  unfold year_ok in Y. apply andb_true_iff in Y as [Hy1 Hy2].
  apply Z.leb_le in Hy1. apply Z.leb_le in Hy2.
  exists y, m, d. split; [reflexivity|]. split; [reflexivity|].
  split; [lia|]. split; [exact Hv|]. intro Hy.
  unfold valid_date, days_in_month in Hv.
  repeat rewrite andb_true_iff in Hv. destruct Hv as [[[Hm1 Hm2] Hd1] Hd2].
  apply Z.leb_le in Hm1, Hm2, Hd1, Hd2.
  assert (Hd31 : d <= 31) by (destruct (m =? 2), (leap_year y),
    ((m =? 4) || (m =? 6) || (m =? 9) || (m =? 11)); lia).
  assert (Hpd := all_from_spec _ 31 1 d pad2_checked).
  assert (Hpm := all_from_spec _ 31 1 m pad2_checked).
  assert (Hpy := all_from_spec _ 9000 1000 y year_checked).
  change (Z.of_nat 31) with 31 in Hpd, Hpm. change (Z.of_nat 9000) with 9000 in Hpy.
  specialize (Hpd ltac:(lia)). specialize (Hpm ltac:(lia)). specialize (Hpy ltac:(lia)).
  cbv beta in Hpd, Hpm, Hpy. apply Nat.eqb_eq in Hpd, Hpm, Hpy.
  rewrite ?length_app; cbn [List.length]; rewrite ?length_app; cbn [List.length]; lia.
Qed.

Lemma fmt_date_valid_witness :
  fmt_date utc 1700000000 = inl (u "14.11.2023") /\
  exists y m d,
    civil_from_days ((1700000000 + utc 1700000000) / 86400) = (y, m, d) /\
    u "14.11.2023" = pad2 d ++ [46] ++ pad2 m ++ [46] ++ py_str_int y /\
    1 <= y <= 9999 /\ valid_date y m d = true /\
    (1000 <= y -> List.length (u "14.11.2023") = 10%nat).
Proof.
  assert (H : fmt_date utc 1700000000 = inl (u "14.11.2023")) by (vm_compute; reflexivity).
  split; [exact H|].
  exact (fmt_date_valid utc 1700000000 _ H).
Defined.

(** The three exceptions of [datetime.fromtimestamp], in UTC: the fold
    probe one day earlier falls in year 0 for 0001-01-01, [localtime]
    cannot give a year of 10^17 seconds in a C [int], and 10^19 is
    beyond [time_t]. *)
Lemma fromtimestamp_date_errors :
  fromtimestamp_date utc (-62135596800) = inr DateValueError /\
  fromtimestamp_date utc (-62135596800 + 86400) = inl (1, 1, 2) /\
  fromtimestamp_date utc (10 ^ 17) = inr DateOSError /\
  fromtimestamp_date utc (10 ^ 19) = inr DateOverflowError.
Proof. repeat split; vm_compute; reflexivity. Qed.

(** ** The callbacks and the successful run of [main] *)


(** With [tqdm], once the bar exists, each callback only moves it. *)
Lemma run_callbacks_bar_steps : forall N l s,
  m_startup_stopped s = true -> m_pbar s = Some N ->
  run_callbacks true (map (fun i => (i, N)) l) s =
    ({| m_fs := m_fs s; m_trace := m_trace s ++ map PbarSetN l;
        m_startup_stopped := m_startup_stopped s; m_pbar := m_pbar s;
        m_spinner_thread := m_spinner_thread s |}, inl tt).
Proof.
  intros N l. induction l as [|i l IH]; intros [fs tr st pb sp] Hs Hp;
    cbn [m_startup_stopped m_pbar] in Hs, Hp; subst st pb.
  - cbn. rewrite app_nil_r. reflexivity.
  - cbn [map run_callbacks]. unfold bind at 1. unfold progress_callback, on_progress.
    unfold bind, get, ret, emit. cbn [m_startup_stopped m_pbar m_fs m_trace m_spinner_thread].
    rewrite Z.eqb_refl.
    rewrite IH by reflexivity. cbn [m_fs m_trace m_startup_stopped m_pbar m_spinner_thread].
    rewrite <- app_assoc. reflexivity.
Qed.

(** Without [tqdm], callbacks after the first do nothing. *)
Lemma run_callbacks_fallback_idle : forall l s,
  m_startup_stopped s = true -> run_callbacks false l s = (s, inl tt).
Proof.
  intros l. induction l as [|[c t] l IH]; intros s Hs; [reflexivity|].
  cbn [run_callbacks]. unfold bind at 1. unfold progress_callback, on_progress_fallback.
  unfold bind, get, ret. rewrite Hs. apply IH. exact Hs.
Qed.

Lemma progress_calls_S : forall n,
  progress_calls (S n) =
    (1, Z.of_nat (S n)) :: map (fun i => (i, Z.of_nat (S n))) (map Z.of_nat (seq 2 n)).
Proof.
  intro n. unfold progress_calls. cbn [seq map]. rewrite map_map. reflexivity.
Qed.

Lemma run_callbacks_tqdm_first : forall n s,
  m_startup_stopped s = false -> m_pbar s = None ->
  run_callbacks true (progress_calls (S n)) s =
    ({| m_fs := m_fs s;
        m_trace := m_trace s ++ [StartupSpinnerStop; PbarCreate (Z.of_nat (S n))]
                   ++ map PbarSetN (map Z.of_nat (seq 1 (S n)));
        m_startup_stopped := true; m_pbar := Some (Z.of_nat (S n));
        m_spinner_thread := m_spinner_thread s |}, inl tt).
Proof.
  intros n [fs tr st pb sp] Hs Hp. cbn [m_startup_stopped m_pbar] in Hs, Hp. subst st pb.
  rewrite progress_calls_S. cbn [run_callbacks]. unfold bind at 1.
  unfold progress_callback, on_progress, bind, get, ret, emit, set_startup_stopped, set_pbar.
  cbn [m_startup_stopped m_pbar m_fs m_trace m_spinner_thread].
  rewrite Z.eqb_refl.
  rewrite run_callbacks_bar_steps by reflexivity.
  cbn [m_fs m_trace m_startup_stopped m_pbar m_spinner_thread seq map].
  rewrite <- !app_assoc. reflexivity.
Qed.

Lemma run_callbacks_fallback_first : forall n s,
  m_startup_stopped s = false ->
  run_callbacks false (progress_calls (S n)) s =
    ({| m_fs := m_fs s;
        m_trace := m_trace s ++ [StartupSpinnerStop; ParseSpinnerStart];
        m_startup_stopped := true; m_pbar := m_pbar s;
        m_spinner_thread := true |}, inl tt).
Proof.
  intros n [fs tr st pb sp] Hs. cbn [m_startup_stopped] in Hs. subst st.
  rewrite progress_calls_S. cbn [run_callbacks]. unfold bind at 1.
  unfold progress_callback, on_progress_fallback, bind, get, ret, emit,
         set_startup_stopped, set_spinner_thread.
  cbn [m_startup_stopped m_pbar m_fs m_trace m_spinner_thread].
  rewrite run_callbacks_fallback_idle by reflexivity.
  rewrite <- !app_assoc. reflexivity.
Qed.

Lemma fetch_returns_block : forall tq f n d s0,
  f_progress f = progress_calls n -> f_end f = FetchReturns d ->
  m_startup_stopped s0 = false -> m_pbar s0 = None -> m_spinner_thread s0 = false ->
  exists s1,
    try_except_finally (yp_parse tq f)
      (stop_animations tq ;;; raise (SystemExit cancel_message))
      (stop_animations tq) s0 = (s1, inl d) /\
    m_fs s1 = m_fs s0 /\ m_trace s1 = m_trace s0 ++ fetch_success_events tq n.
Proof.
  intros tq f n d [fs tr st pb sp] Hp Hf Hs Hb Hsp.
  cbn [m_startup_stopped m_pbar m_spinner_thread] in Hs, Hb, Hsp. subst st pb sp.
  unfold try_except_finally, yp_parse. unfold bind at 1. rewrite Hp, Hf.
  destruct n as [|n].
  - unfold progress_calls. cbn [seq map run_callbacks ret].
    unfold stop_animations, bind, get, ret, emit.
    cbn [m_startup_stopped m_pbar m_fs m_trace m_spinner_thread negb andb].
    destruct tq; cbn; eexists; (split; [reflexivity|]); split; reflexivity.
  - destruct tq.
    + rewrite run_callbacks_tqdm_first by reflexivity.
      unfold stop_animations, bind, get, ret, emit.
      cbn [m_startup_stopped m_pbar m_fs m_trace m_spinner_thread].
      replace (negb (Z.of_nat (S n) =? 0)) with true by (symmetry; apply negb_true_iff, Z.eqb_neq; lia).
      eexists; (split; [reflexivity|]); split; [reflexivity|].
      cbn [m_trace fetch_success_events]. rewrite <- !app_assoc. reflexivity.
    + rewrite run_callbacks_fallback_first by reflexivity.
      unfold stop_animations, bind, get, ret, emit.
      cbn [m_startup_stopped m_pbar m_fs m_trace m_spinner_thread negb andb].
      eexists; (split; [reflexivity|]); split; [reflexivity|].
      cbn [m_trace fetch_success_events]. rewrite <- !app_assoc. reflexivity.
Qed.

(** [X10] When the fetch returns the data after the progress calls for [n]
    elements, the markdown builds, the output path validates and the file
    opens, [main] ends normally with the file system the write leaves; its
    events are the spinners or the bar, one write of the markdown, then the
    message naming the path. *)
Theorem main_success_trace : forall uo et nd dg tq args line f st n d company_id md st1 p st2,
  f_progress f = progress_calls n -> f_end f = FetchReturns d ->
  extract_id nd dg (input_value args line) = inl company_id ->
  build_markdown uo tq (a_verbose args) d = inl md ->
  validate_output et st (a_output args) company_id = (st1, inl p) ->
  open_for_write st1 p = inl st2 ->
  exists s',
    main uo et nd dg tq args line f (initial_state st) = (s', inl tt) /\
    m_fs s' = st2 /\
    m_trace s' = StartupSpinnerStart :: fetch_success_events tq n
                 ++ [WriteFile p md; PrintLine (saved_prefix ++ path_text (p_parts p))].
Proof.
  intros uo et nd dg tq args line f st n d company_id md st1 p st2 Hp Hf Hid Hmd Hv Ho.
  unfold main. rewrite Hid. unfold bind at 1.
  set (s0 := fst (emit StartupSpinnerStart (initial_state st))).
  change (emit StartupSpinnerStart (initial_state st)) with (s0, @inl unit exc tt).
  destruct (fetch_returns_block tq f n d s0 Hp Hf eq_refl eq_refl eq_refl) as [s1 [E [Hfs Htr]]].
  unfold bind at 1. rewrite E. rewrite Hmd.
  unfold bind at 1. unfold with_fs at 1. rewrite Hfs. cbn [s0 emit initial_state fst m_fs].
  rewrite Hv.
  unfold bind at 1. unfold write_text. unfold bind at 1. unfold with_fs at 1.
  cbn [m_fs]. rewrite Ho. unfold emit.
  cbn [m_fs m_trace m_startup_stopped m_pbar m_spinner_thread].
  eexists. split; [reflexivity|]. split; [reflexivity|].
  rewrite Htr. cbn [s0 emit initial_state fst m_trace app].
  rewrite <- !app_assoc. reflexivity.
Qed.

Lemma main_success_trace_witness :
  exists st1 st2,
    validate_output no_tilde fs_notes (a_output args_demo) 1234567 = (st1, inl out_md_demo) /\
    open_for_write st1 out_md_demo = inl st2 /\
    exists s',
      main utc no_tilde latin1_decimal latin1_digit_only true args_demo [] fetch_ok_demo
        (initial_state fs_notes) = (s', inl tt) /\
      m_fs s' = st2 /\
      m_trace s' = StartupSpinnerStart :: fetch_success_events true 2
                   ++ [WriteFile out_md_demo doc_ab;
                       PrintLine (saved_prefix ++ path_text (p_parts out_md_demo))].
Proof.
  assert (Ev : validate_output no_tilde fs_notes (a_output args_demo) 1234567
               = (fst (validate_output no_tilde fs_notes (a_output args_demo) 1234567),
                  inl out_md_demo)) by (vm_compute; reflexivity).
  assert (Eo : open_for_write (fst (validate_output no_tilde fs_notes (a_output args_demo) 1234567))
                 out_md_demo
               = inl (match open_for_write (fst (validate_output no_tilde fs_notes
                                                   (a_output args_demo) 1234567))
                              out_md_demo with inl s => s | inr _ => fs_notes end))
    by (vm_compute; reflexivity).
  set (st1 := fst (validate_output no_tilde fs_notes (a_output args_demo) 1234567)) in *.
  set (st2 := match open_for_write st1 out_md_demo with inl s => s | inr _ => fs_notes end) in *.
  exists st1, st2. split; [exact Ev|]. split; [exact Eo|].
  apply (main_success_trace utc no_tilde latin1_decimal latin1_digit_only true args_demo []
           fetch_ok_demo fs_notes 2 data_ab 1234567 doc_ab st1 out_md_demo st2);
    [reflexivity | reflexivity | vm_compute; reflexivity | vm_compute; reflexivity
    | exact Ev | exact Eo].
Defined.

(** ** [_validate_output] only adds directories; [int()]'s error *)

Lemma grows_refl : forall st, grows st st.
Proof. intros st. split; [reflexivity|]. split; auto. Qed.

Lemma grows_trans : forall st1 st2 st3, grows st1 st2 -> grows st2 st3 -> grows st1 st3.
Proof.
  intros st1 st2 st3 [C1 [K1 N1]] [C2 [K2 N2]]. split; [congruence|]. split; [auto|].
  intros k n H. destruct (N2 k n H) as [H'|H']; [|right; exact H']. exact (N1 k n H').
Qed.

Lemma os_mkdir_grows : forall st p st', os_mkdir st p = inl st' -> grows st st'.
Proof.
  intros st p st'. unfold os_mkdir.
  destruct (rev (p_parts p)) as [|last rinit]; [discriminate|].
  destruct (walk (fs_nodes st) [] (rev rinit)) as [c|c| |]; try discriminate.
  destruct (ustr_eqb last dotdot); [discriminate|].
  destruct (fs_nodes st (c ++ [last])) as [n0|] eqn:Hk; [discriminate|].
  intros E. injection E as <-. split; [reflexivity|]. cbn [fs_nodes]. unfold set_node. split.
  - intros k n H. destruct (list_eq_dec (list_eq_dec Z.eq_dec) k (c ++ [last])) as [->|]; congruence.
  - intros k n H. destruct (list_eq_dec (list_eq_dec Z.eq_dec) k (c ++ [last])); [right; congruence|left; exact H].
Qed.

Lemma mkdir_once_grows : forall st p b, grows st (fst (mkdir_once st p b)).
Proof.
  intros st p b. unfold mkdir_once. destruct (os_mkdir st p) as [st'|e] eqn:E.
  - exact (os_mkdir_grows st p st' E).
  - destruct (b && is_dir st p); apply grows_refl.
Qed.

Lemma mkdir_parents_grows : forall fuel st p b, grows st (fst (mkdir_parents fuel st p b)).
Proof.
  induction fuel as [|f IH]; intros st p b; cbn [mkdir_parents];
    destruct (os_mkdir st p) as [st'|e] eqn:E;
    try exact (os_mkdir_grows st p st' E);
    (destruct e; try (destruct (b && is_dir st p); apply grows_refl); try apply grows_refl).
  destruct (list_eq_dec (list_eq_dec Z.eq_dec) (p_parts (parent p)) (p_parts p)); [apply grows_refl|].
  pose proof (IH st (parent p) true) as G.
  destruct (mkdir_parents f st (parent p) true) as [st1 [e|]]; cbn [fst] in *; [exact G|].
  exact (grows_trans _ _ _ G (mkdir_once_grows st1 p b)).
Qed.

(** [X9] [_validate_output] never removes or changes an entry of the file
    system and never moves the working directory; the only entries it adds
    are directories, also when [mkdir] fails half-way. *)
Theorem validate_output_grows : forall et st arg id,
  grows st (fst (validate_output et st arg id)).
Proof.
  intros et st arg id. unfold validate_output.
  destruct arg as [[|c s]|]; try apply grows_refl.
  destruct (expand_absolute et st (c :: s)) as [p|e]; [|apply grows_refl].
  match goal with |- context [if negb (path_exists st ?q) then _ else _] => set (pp := q) end.
  destruct (negb (path_exists st pp)); [|apply grows_refl].
  unfold mkdir_p. pose proof (mkdir_parents_grows (List.length (p_parts pp)) st pp true) as G.
  destruct (mkdir_parents _ st pp true) as [st' [e|]]; exact G.
Qed.




(** ** The failing runs of [main] *)

Lemma fetch_block_quiet : forall tq f s0 r,
  pbar_inv tq s0 ->
  (match f_end f with FetchReturns d => inl d | FetchInterrupted => inr KeyboardInterrupt
   | FetchFails => inr FetchError end) = r ->
  r <> inr KeyboardInterrupt ->
  exists s3,
    try_except_finally (yp_parse tq f)
      (stop_animations tq ;;; raise (SystemExit cancel_message))
      (stop_animations tq) s0 = (s3, r) /\
    quiet s0 s3.
Proof.
  intros tq f s0 r Hinv Hr Hk.
  destruct (run_callbacks_quiet tq (f_progress f) s0 Hinv) as [s1 [E1 [_ Hq1]]].
  unfold try_except_finally, yp_parse, bind at 1.
  rewrite E1.
  destruct (stop_animations_quiet tq s1) as [s3 [E3 Hq3]].
  exists s3.
  destruct (f_end f) as [d| |]; subst r; cbn [ret raise].
  - rewrite E3. split; [reflexivity|]. eapply quiet_trans; eassumption.
  - exfalso; apply Hk; reflexivity.
  - rewrite E3. split; [reflexivity|]. eapply quiet_trans; eassumption.
Qed.

(** [X11] When the parser fails with an error other than Ctrl+C, [main] ends
    with that error after its [finally] block, with the file system it
    started with and no file written. *)
Theorem main_fetch_fails_no_output :
  forall uo et nd dg tq args line f st company_id,
  f_end f = FetchFails ->
  extract_id nd dg (input_value args line) = inl company_id ->
  exists s',
    main uo et nd dg tq args line f (initial_state st) = (s', inr FetchError) /\
    m_fs s' = st /\ no_write (m_trace s').
Proof.
  intros uo et nd dg tq args line f st company_id Hf Hid.
  unfold main. rewrite Hid. unfold bind at 1.
  set (s0 := fst (emit StartupSpinnerStart (initial_state st))).
  change (emit StartupSpinnerStart (initial_state st)) with (s0, @inl unit exc tt).
  assert (Hinv : pbar_inv tq s0) by (intros _ H; discriminate H).
  assert (Hq0 : quiet (initial_state st) s0) by (subst s0; quiet_tac).
  destruct (fetch_block_quiet tq f s0 (inr FetchError) Hinv ltac:(rewrite Hf; reflexivity)
              ltac:(discriminate)) as [s3 [E Hq]].
  unfold bind at 1. rewrite E.
  destruct (quiet_trans _ _ _ Hq0 Hq) as [Hfs [extra [Ht Hnw]]].
  exists s3. split; [reflexivity|]. split; [exact Hfs|]. rewrite Ht. exact Hnw.
Qed.

Lemma main_fetch_fails_no_output_witness :
  f_end fetch_fails_demo = FetchFails /\
  extract_id latin1_decimal latin1_digit_only (input_value args_demo []) = inl 1234567 /\
  exists s',
    main utc no_tilde latin1_decimal latin1_digit_only false args_demo [] fetch_fails_demo
      (initial_state fs_notes) = (s', inr FetchError) /\
    m_fs s' = fs_notes /\ no_write (m_trace s').
Proof.
  assert (H1 : f_end fetch_fails_demo = FetchFails) by reflexivity.
  assert (H2 : extract_id latin1_decimal latin1_digit_only (input_value args_demo []) = inl 1234567)
    by (vm_compute; reflexivity).
  split; [exact H1|]. split; [exact H2|].
  exact (main_fetch_fails_no_output utc no_tilde latin1_decimal latin1_digit_only false
           args_demo [] fetch_fails_demo fs_notes 1234567 H1 H2).
Defined.

(** [X12] When the fetched data has a review date [datetime] rejects,
    [main] ends with the exception [build_markdown] raised for it
    ([ValueError], [OSError] or [OverflowError]), before
    [_validate_output] runs: the file system is the one it started with
    and no file is written. *)
Theorem main_bad_date_no_output :
  forall uo et nd dg tq args line f st company_id d e,
  f_end f = FetchReturns d ->
  extract_id nd dg (input_value args line) = inl company_id ->
  build_markdown uo tq (a_verbose args) d = inr e ->
  exists s',
    main uo et nd dg tq args line f (initial_state st) = (s', inr (DateError e)) /\
    m_fs s' = st /\ no_write (m_trace s').
Proof.
  intros uo et nd dg tq args line f st company_id d e Hf Hid Hmd.
  unfold main. rewrite Hid. unfold bind at 1.
  set (s0 := fst (emit StartupSpinnerStart (initial_state st))).
  change (emit StartupSpinnerStart (initial_state st)) with (s0, @inl unit exc tt).
  assert (Hinv : pbar_inv tq s0) by (intros _ H; discriminate H).
  assert (Hq0 : quiet (initial_state st) s0) by (subst s0; quiet_tac).
  destruct (fetch_block_quiet tq f s0 (inl d) Hinv ltac:(rewrite Hf; reflexivity)
              ltac:(discriminate)) as [s3 [E Hq]].
  unfold bind at 1. rewrite E, Hmd. cbn [raise].
  destruct (quiet_trans _ _ _ Hq0 Hq) as [Hfs [extra [Ht Hnw]]].
  exists s3. split; [reflexivity|]. split; [exact Hfs|]. rewrite Ht. exact Hnw.
Qed.

Lemma main_bad_date_no_output_witness :
  f_end fetch_far_demo = FetchReturns data_far /\
  extract_id latin1_decimal latin1_digit_only (input_value args_demo []) = inl 1234567 /\
  build_markdown utc true (a_verbose args_demo) data_far = inr DateValueError /\
  exists s',
    main utc no_tilde latin1_decimal latin1_digit_only true args_demo [] fetch_far_demo
      (initial_state fs_notes) = (s', inr (DateError DateValueError)) /\
    m_fs s' = fs_notes /\ no_write (m_trace s').
Proof.
  assert (H1 : f_end fetch_far_demo = FetchReturns data_far) by reflexivity.
  assert (H2 : extract_id latin1_decimal latin1_digit_only (input_value args_demo []) = inl 1234567)
    by (vm_compute; reflexivity).
  assert (H3 : build_markdown utc true (a_verbose args_demo) data_far = inr DateValueError)
    by (vm_compute; reflexivity).
  split; [exact H1|]. split; [exact H2|]. split; [exact H3|].
  exact (main_bad_date_no_output utc no_tilde latin1_decimal latin1_digit_only true
           args_demo [] fetch_far_demo fs_notes 1234567 data_far DateValueError H1 H2 H3).
Defined.

(** [X13] When opening the output file fails, [main] ends with that
    [OSError]; no file is written, and the file system is the one
    [_validate_output] left, with the directories it created. *)
Theorem main_write_fails_no_output :
  forall uo et nd dg tq args line f st company_id d md st1 p e,
  f_end f = FetchReturns d ->
  extract_id nd dg (input_value args line) = inl company_id ->
  build_markdown uo tq (a_verbose args) d = inl md ->
  validate_output et st (a_output args) company_id = (st1, inl p) ->
  open_for_write st1 p = inr e ->
  exists s',
    main uo et nd dg tq args line f (initial_state st) = (s', inr (OSErr e)) /\
    m_fs s' = st1 /\ no_write (m_trace s').
Proof.
  intros uo et nd dg tq args line f st company_id d md st1 p e Hf Hid Hmd Hv Ho.
  unfold main. rewrite Hid. unfold bind at 1.
  set (s0 := fst (emit StartupSpinnerStart (initial_state st))).
  change (emit StartupSpinnerStart (initial_state st)) with (s0, @inl unit exc tt).
  assert (Hinv : pbar_inv tq s0) by (intros _ H; discriminate H).
  assert (Hq0 : quiet (initial_state st) s0) by (subst s0; quiet_tac).
  destruct (fetch_block_quiet tq f s0 (inl d) Hinv ltac:(rewrite Hf; reflexivity)
              ltac:(discriminate)) as [s3 [E Hq]].
  unfold bind at 1. rewrite E, Hmd.
  destruct (quiet_trans _ _ _ Hq0 Hq) as [Hfs [extra [Ht Hnw]]].
  unfold bind at 1. unfold with_fs at 1. rewrite Hfs. cbn [initial_state m_fs].
  rewrite Hv.
  unfold bind at 1. unfold write_text. unfold bind at 1. unfold with_fs at 1.
  cbn [m_fs]. rewrite Ho.
  eexists. split; [reflexivity|]. split; [reflexivity|].
  cbn [m_trace]. rewrite Ht. exact Hnw.
Qed.

Lemma main_write_fails_no_output_witness :
  f_end fetch_ok_demo = FetchReturns data_ab /\
  extract_id latin1_decimal latin1_digit_only (input_value args_in_file []) = inl 1234567 /\
  build_markdown utc true (a_verbose args_in_file) data_ab = inl doc_ab /\
  validate_output no_tilde fs_notes (a_output args_in_file) 1234567
    = (fs_notes, inl {| p_abs := true; p_parts := [u "data"; u "notes.txt"; u "out.md"] |}) /\
  open_for_write fs_notes {| p_abs := true; p_parts := [u "data"; u "notes.txt"; u "out.md"] |}
    = inr NotADirectoryError /\
  exists s',
    main utc no_tilde latin1_decimal latin1_digit_only true args_in_file [] fetch_ok_demo
      (initial_state fs_notes) = (s', inr (OSErr NotADirectoryError)) /\
    m_fs s' = fs_notes /\ no_write (m_trace s').
Proof.
  assert (H1 : f_end fetch_ok_demo = FetchReturns data_ab) by reflexivity.
  assert (H2 : extract_id latin1_decimal latin1_digit_only (input_value args_in_file []) = inl 1234567)
    by (vm_compute; reflexivity).
  assert (H3 : build_markdown utc true (a_verbose args_in_file) data_ab = inl doc_ab)
    by (vm_compute; reflexivity).
  assert (H4 : validate_output no_tilde fs_notes (a_output args_in_file) 1234567
    = (fs_notes, inl {| p_abs := true; p_parts := [u "data"; u "notes.txt"; u "out.md"] |}))
    by (vm_compute; reflexivity).
  assert (H5 : open_for_write fs_notes
                 {| p_abs := true; p_parts := [u "data"; u "notes.txt"; u "out.md"] |}
               = inr NotADirectoryError) by (vm_compute; reflexivity).
  split; [exact H1|]. split; [exact H2|]. split; [exact H3|]. split; [exact H4|].
  split; [exact H5|].
  exact (main_write_fails_no_output utc no_tilde latin1_decimal latin1_digit_only true
           args_in_file [] fetch_ok_demo fs_notes 1234567 data_ab doc_ab fs_notes _ _ H1 H2 H3 H4 H5).
Defined.

(** ** No animation left running *)

Lemma fold_run_neutral : forall a tr o,
  forallb neutral tr = true -> fold_left (run_step a) tr o = o.
Proof.
  intros a. induction tr as [|e r IH]; intros o H; [reflexivity|].
  cbn [forallb] in H. apply andb_true_iff in H as [He Hr].
  cbn [fold_left]. rewrite IH by exact Hr.
  destruct a, e; try discriminate; reflexivity.
Qed.

Lemma on_progress_bar_step : forall c t fs tr sp t0,
  exists mv,
    on_progress c t {| m_fs := fs; m_trace := tr; m_startup_stopped := true;
                       m_pbar := Some t0; m_spinner_thread := sp |}
    = ({| m_fs := fs; m_trace := tr ++ mv; m_startup_stopped := true;
          m_pbar := Some t; m_spinner_thread := sp |}, inl tt) /\
    forallb neutral mv = true.
Proof.
  intros c t fs tr sp t0.
  unfold on_progress, bind, get, ret, emit, set_pbar.
  cbn [m_startup_stopped m_pbar m_fs m_trace m_spinner_thread].
  destruct (t0 =? t) eqn:E.
  - apply Z.eqb_eq in E. subst t0. exists [PbarSetN c]. split; reflexivity.
  - exists [PbarSetTotal t; PbarSetN c]. cbn [m_trace]. rewrite <- app_assoc. split; reflexivity.
Qed.

Lemma run_callbacks_bar_moves : forall l fs tr sp t0,
  t0 <> 0 -> Forall (fun ct => snd ct <> 0) l ->
  exists mv t',
    run_callbacks true l {| m_fs := fs; m_trace := tr; m_startup_stopped := true;
                            m_pbar := Some t0; m_spinner_thread := sp |}
    = ({| m_fs := fs; m_trace := tr ++ mv; m_startup_stopped := true;
          m_pbar := Some t'; m_spinner_thread := sp |}, inl tt) /\
    forallb neutral mv = true /\ t' <> 0.
Proof.
  induction l as [|[c t] rest IH]; intros fs tr sp t0 H0 Hl.
  - exists [], t0. rewrite app_nil_r. split; [reflexivity|]. split; [reflexivity | exact H0].
  - inversion Hl as [|? ? Ht Hr]; subst. cbn [snd] in Ht.
    cbn [run_callbacks]. unfold bind at 1. unfold progress_callback.
    destruct (on_progress_bar_step c t fs tr sp t0) as [mv1 [E1 N1]]. rewrite E1.
    destruct (IH fs (tr ++ mv1) sp t Ht Hr) as [mv2 [t' [E2 [N2 H']]]]. rewrite E2.
    exists (mv1 ++ mv2), t'. rewrite app_assoc. split; [reflexivity|].
    split; [rewrite forallb_app, N1, N2; reflexivity | exact H'].
Qed.

Ltac running_tac N :=
  intros []; unfold running_after; cbn [app];
  repeat (rewrite ?fold_left_app; cbn [fold_left]);
  rewrite ?(fold_run_neutral _ _ _ N); reflexivity.

Lemma fetch_block_stops : forall tq f fs,
  Forall (fun ct => snd ct <> 0) (f_progress f) ->
  exists s3 r3 ext,
    try_except_finally (yp_parse tq f)
      (stop_animations tq ;;; raise (SystemExit cancel_message))
      (stop_animations tq)
      {| m_fs := fs; m_trace := [StartupSpinnerStart]; m_startup_stopped := false;
         m_pbar := None; m_spinner_thread := false |} = (s3, r3) /\
    m_trace s3 = StartupSpinnerStart :: ext /\
    forall a, running_after a (StartupSpinnerStart :: ext) = false.
Proof.
  intros tq f fs Hl. unfold try_except_finally, yp_parse. unfold bind at 1.
  destruct (f_progress f) as [|[c t] rest] eqn:Ep.
  - cbn [run_callbacks ret].
    destruct (f_end f); destruct tq;
      unfold stop_animations, bind, get, ret, emit, raise;
      cbn [m_startup_stopped m_pbar m_fs m_trace m_spinner_thread negb andb app];
      do 3 eexists; (split; [reflexivity|]); (split; [reflexivity|]); intros []; reflexivity.
  - inversion Hl as [|? ? Ht Hr]; subst. cbn [snd] in Ht.
    cbn [run_callbacks]. unfold bind at 1. unfold progress_callback. destruct tq.
    + assert (E1 : on_progress c t {| m_fs := fs; m_trace := [StartupSpinnerStart];
                     m_startup_stopped := false; m_pbar := None; m_spinner_thread := false |}
                   = ({| m_fs := fs;
                         m_trace := [StartupSpinnerStart; StartupSpinnerStop; PbarCreate t; PbarSetN c];
                         m_startup_stopped := true; m_pbar := Some t;
                         m_spinner_thread := false |}, inl tt)).
      { unfold on_progress, bind, get, ret, emit, set_pbar, set_startup_stopped.
        cbn [m_startup_stopped m_pbar m_fs m_trace m_spinner_thread app].
        rewrite Z.eqb_refl. reflexivity. }
      rewrite E1.
      destruct (run_callbacks_bar_moves rest fs
                  [StartupSpinnerStart; StartupSpinnerStop; PbarCreate t; PbarSetN c]
                  false t Ht Hr) as [mv [t' [E2 [N2 H']]]].
      rewrite E2.
      assert (Hc : negb (t' =? 0) = true) by (apply negb_true_iff, Z.eqb_neq; exact H').
      destruct (f_end f);
        unfold stop_animations, bind, get, ret, emit, raise;
        cbn [m_startup_stopped m_pbar m_fs m_trace m_spinner_thread];
        repeat (rewrite Hc; cbn [m_startup_stopped m_pbar m_fs m_trace m_spinner_thread]);
        do 3 eexists; (split; [reflexivity|]); cbn [app]; (split; [reflexivity|]);
        running_tac N2.
    + assert (E1 : on_progress_fallback c t {| m_fs := fs; m_trace := [StartupSpinnerStart];
                     m_startup_stopped := false; m_pbar := None; m_spinner_thread := false |}
                   = ({| m_fs := fs;
                         m_trace := [StartupSpinnerStart; StartupSpinnerStop; ParseSpinnerStart];
                         m_startup_stopped := true; m_pbar := None;
                         m_spinner_thread := true |}, inl tt)) by reflexivity.
      rewrite E1. rewrite run_callbacks_fallback_idle by reflexivity.
      destruct (f_end f);
        unfold stop_animations, bind, get, ret, emit, raise;
        cbn [m_startup_stopped m_pbar m_fs m_trace m_spinner_thread negb andb app];
        do 3 eexists; (split; [reflexivity|]); (split; [reflexivity|]); intros []; reflexivity.
Qed.

(** [X14] Whichever way the fetch ends (data, Ctrl+C or another error) and
    however [main] ends after it, the start-up spinner, the parsing spinner
    and the progress bar are all stopped or closed at the end of its
    trace, given that every progress call reports a nonzero total, as the
    calls of [_patched_get_data_reviews] do. *)
Theorem main_stops_animations : forall uo et nd dg tq args line f st s' r,
  Forall (fun ct => snd ct <> 0) (f_progress f) ->
  main uo et nd dg tq args line f (initial_state st) = (s', r) ->
  forall a, running_after a (m_trace s') = false.
Proof.
  intros uo et nd dg tq args line f st s' r Hl Hm a.
  unfold main in Hm.
  destruct (extract_id nd dg (input_value args line)) as [cid|e] eqn:Hid.
  2: { cbn [raise] in Hm. injection Hm as <- _. reflexivity. }
  unfold bind at 1 in Hm.
  change (emit StartupSpinnerStart (initial_state st)) with
    ({| m_fs := st; m_trace := [StartupSpinnerStart]; m_startup_stopped := false;
        m_pbar := None; m_spinner_thread := false |}, @inl unit exc tt) in Hm.
  destruct (fetch_block_stops tq f st Hl) as [s3 [r3 [ext [E [Ht Hrun]]]]].
  unfold bind at 1 in Hm. rewrite E in Hm.
  assert (Hfin : running_after a (m_trace s3) = false) by (rewrite Ht; apply Hrun).
  destruct r3 as [d|e]; [|injection Hm as <- _; exact Hfin].
  destruct (build_markdown uo tq (a_verbose args) d) as [md|];
    [|cbn [raise] in Hm; injection Hm as <- _; exact Hfin].
  unfold bind at 1 in Hm. unfold with_fs at 1 in Hm.
  destruct (validate_output et (m_fs s3) (a_output args) cid) as [st1 [p|e]];
    cbv beta iota zeta in Hm; [|injection Hm as <- _; exact Hfin].
  unfold write_text in Hm. unfold bind at 1 in Hm. unfold bind at 1 in Hm.
  unfold with_fs at 1 in Hm. cbn [m_fs] in Hm.
  destruct (open_for_write st1 p) as [st2|e];
    cbv beta iota zeta in Hm; [|injection Hm as <- _; exact Hfin].
  unfold emit in Hm. cbn [m_trace m_fs m_startup_stopped m_pbar m_spinner_thread] in Hm.
  injection Hm as <- _. cbn [m_trace].
  unfold running_after. rewrite !fold_left_app.
  change (fold_left (run_step a) (m_trace s3) false) with (running_after a (m_trace s3)).
  rewrite Hfin. destruct a; reflexivity.
Qed.

Lemma main_stops_animations_witness :
  Forall (fun ct => snd ct <> 0) (f_progress fetch_interrupted_demo) /\
  (forall a, running_after a
     (m_trace (fst (main utc no_tilde latin1_decimal latin1_digit_only true args_demo []
                     fetch_interrupted_demo (initial_state fs_notes)))) = false).
Proof.
  assert (Hl : Forall (fun ct => snd ct <> 0) (f_progress fetch_interrupted_demo))
    by (repeat constructor; cbn; discriminate).
  split; [exact Hl|].
  exact (main_stops_animations utc no_tilde latin1_decimal latin1_digit_only true args_demo []
           fetch_interrupted_demo fs_notes _ _ Hl (surjective_pairing _)).
Defined.
